(** * DNADU: nucleotide distribution uniformity of DNA sequences

    A shallow embedding of [DNANDU.py] (congruence matrix, NDU and perfect
    level scores, period searches, consensus repeat, sliding windows) and
    the properties of it that the specification states.

    Conventions of the embedding.
    - Python integers are [Z]; positions inside a list are [nat].
    - A Python/numpy float is a [pyfloat]: a rational (exact arithmetic, no
      rounding) or one of the special values numpy produces when a scalar
      is divided by zero.
    - A raised exception is the [Raise] outcome of the [result] monad; a
      [for] loop whose body raises stops at once, as in Python.
    - [print] in [getLargests] writes to the console only and is left out. *)

From Stdlib Require Import ZArith QArith Lia Lqa String Ascii List.
From stdpp Require Import base list.

Local Open Scope Z_scope.

(** ** Exceptions and the error monad *)

Inductive exn : Set :=
| ValueError
| ZeroDivisionError
| IndexError.

Inductive result (A : Type) : Type :=
| Ok (a : A)
| Raise (e : exn).

Arguments Ok {A} a.
Arguments Raise {A} e.

Definition bind {A B : Type} (m : result A) (k : A -> result B) : result B :=
  match m with
  | Ok a => k a
  | Raise e => Raise e
  end.

Notation "'let*' x ':=' m 'in' k" := (bind m (fun x => k))
  (at level 10, x name, m at level 100, k at level 200).

Definition raises {A : Type} (m : result A) : Prop :=
  exists e, m = Raise e.

(** [for x in xs: out.append(f(x))] *)
Fixpoint mapM {A B : Type} (f : A -> result B) (xs : list A) : result (list B) :=
  match xs with
  | [] => Ok []
  | x :: xs' => let* y := f x in let* ys := mapM f xs' in Ok (y :: ys)
  end.

(** [for x in xs: s = f(s, x)] *)
Fixpoint foldM {A S : Type} (f : S -> A -> result S) (xs : list A) (s : S) : result S :=
  match xs with
  | [] => Ok s
  | x :: xs' => let* s' := f s x in foldM f xs' s'
  end.

(** [range(0, n)], as positions. *)
Definition nrange (n : Z) : list nat := seq 0 (Z.to_nat n).

(** [range(a, b)] *)
Definition pyrange (a b : Z) : list Z := seqZ a (b - a).

(** ** Floats *)

Inductive pyfloat : Type :=
| Fin (q : Q)
| PInf
| NInf
| NaN.

(** Python [a / b] on two Python integers. *)
Definition py_truediv (a b : Z) : result Q :=
  if b =? 0 then Raise ZeroDivisionError else Ok (inject_Z a / inject_Z b)%Q.

(** numpy scalar [x / n]: a zero divisor gives a warning and nan or an
    infinity, never an exception. *)
Definition np_truediv (x : Q) (n : Z) : pyfloat :=
  if n =? 0 then
    match (x ?= 0)%Q with
    | Eq => NaN
    | Gt => PInf
    | Lt => NInf
    end
  else Fin (x / inject_Z n).

(** [a > b] on floats; every comparison with nan is false. *)
Definition pf_gt (a b : pyfloat) : bool :=
  match a, b with
  | NaN, _ | _, NaN => false
  | PInf, PInf => false
  | PInf, _ => true
  | _, PInf => false
  | NInf, _ => false
  | Fin _, NInf => true
  | Fin x, Fin y => match (x ?= y)%Q with Gt => true | _ => false end
  end.

Definition pf_lt (a b : pyfloat) : bool := pf_gt b a.

(** The test [list.index] applies: identity first, then [==].  A nan is
    found only as the very object that is looked for; in the searches below
    that object is the one [max] returned, so nan matches nan here. *)
Definition pf_eq (a b : pyfloat) : bool :=
  match a, b with
  | NaN, NaN => true
  | PInf, PInf => true
  | NInf, NInf => true
  | Fin x, Fin y => Qeq_bool x y
  | _, _ => false
  end.

(** [max(l)]: the first of the largest elements; [ValueError] on []. *)
Definition pymax (l : list pyfloat) : result pyfloat :=
  match l with
  | [] => Raise ValueError
  | x :: t => Ok (fold_left (fun m y => if pf_gt y m then y else m) t x)
  end.

(** [l.index(v)]: the first position holding [v]; [ValueError] if none. *)
Fixpoint pyindex (v : pyfloat) (l : list pyfloat) : result Z :=
  match l with
  | [] => Raise ValueError
  | x :: t => if pf_eq x v then Ok 0 else let* i := pyindex v t in Ok (i + 1)
  end.

(** [sorted(l)]: stable, by [<]. *)
Fixpoint pyinsert (x : pyfloat) (l : list pyfloat) : list pyfloat :=
  match l with
  | [] => [x]
  | y :: t => if pf_lt x y then x :: y :: t else y :: pyinsert x t
  end.

Definition pysorted (l : list pyfloat) : list pyfloat :=
  fold_left (fun acc x => pyinsert x acc) l [].

(** ** Sequences and slices *)

Definition chars (s : string) : list ascii := list_ascii_of_string s.

Definition len (s : string) : Z := Z.of_nat (length (chars s)).

(** [l[i]], a negative index counting from the end. *)
Definition pyitem {A : Type} (l : list A) (i : Z) : result A :=
  let n := Z.of_nat (length l) in
  let j := if i <? 0 then i + n else i in
  if (j <? 0) || (n <=? j) then Raise IndexError
  else match l !! Z.to_nat j with
       | Some x => Ok x
       | None => Raise IndexError
       end.

(** [l[a:b]], with negative bounds counted from the end and both clipped. *)
Definition clip (n i : Z) : Z :=
  let j := if i <? 0 then i + n else i in
  Z.max 0 (Z.min n j).

Definition pyslice {A : Type} (l : list A) (a b : Z) : list A :=
  let n := Z.of_nat (length l) in
  let lo := clip n a in
  let hi := clip n b in
  take (Z.to_nat (hi - lo)) (drop (Z.to_nat lo) l).

Definition str_slice (s : string) (a b : Z) : string :=
  string_of_list_ascii (pyslice (chars s) a b).

(** ** The congruence matrix *)

(** A [4 x p] numpy array of integers, as its list of rows. *)
Abbreviation matrix := (list (list Z)) (only parsing).

Definition zeros (r c : nat) : matrix := replicate r (replicate c 0).

(** [CM[r, c]] *)
Definition getitem (CM : matrix) (r c : nat) : result Z :=
  match CM !! r with
  | Some row =>
      match row !! c with
      | Some v => Ok v
      | None => Raise IndexError
      end
  | None => Raise IndexError
  end.

(** [CM[r, c] = CM[r, c] + 1] *)
Definition incritem (CM : matrix) (r c : nat) : result matrix :=
  let* v := getitem CM r c in
  Ok (alter (fun row => <[c := v + 1]> row) r CM).

(** The row a symbol is counted in: G, C, A, and everything else. *)
Definition bucket (ch : ascii) : nat :=
  if Ascii.eqb ch "G" then 0%nat
  else if Ascii.eqb ch "C" then 1%nat
  else if Ascii.eqb ch "A" then 2%nat
  else 3%nat.

(** [i % p] *)
Definition pymod (i p : Z) : result Z :=
  if p =? 0 then Raise ZeroDivisionError else Ok (i mod p).

(** The loop [for i in range(0, n)] of [getCongruenceMatrix], from
    position [i] on, [s] being the symbols not yet counted. *)
Fixpoint cm_loop (p : Z) (s : list ascii) (i : Z) (CM : matrix) : result matrix :=
  match s with
  | [] => Ok CM
  | ch :: s' =>
      let* m := pymod i p in
      let* CM' := incritem CM (bucket ch) (Z.to_nat m) in
      cm_loop p s' (i + 1) CM'
  end.

(** [np.zeros([4, p])] refuses a negative dimension. *)
Definition getCongruenceMatrix (seq : string) (p : Z) : result matrix :=
  if p <? 0 then Raise ValueError
  else cm_loop p (chars seq) 0 (zeros 4 (Z.to_nat p)).

(** ** Scores *)

Definition ncols (CM : matrix) : nat :=
  match CM with
  | [] => 0%nat
  | row :: _ => length row
  end.

Definition column (CM : matrix) (c : nat) : list Z :=
  omap (fun row : list Z => row !! c) CM.

Definition zmax_list (l : list Z) : Z :=
  match l with
  | [] => 0
  | x :: t => fold_left Z.max t x
  end.

(** The first position of the largest element. *)
Fixpoint argmax_from (l : list Z) (i : nat) (best : Z) (besti : nat) : nat :=
  match l with
  | [] => besti
  | x :: t => if best <? x then argmax_from t (S i) x i
              else argmax_from t (S i) best besti
  end.

Definition argmax_list (l : list Z) : nat :=
  match l with
  | [] => 0%nat
  | x :: t => argmax_from t 1 x 0
  end.

(** [np.amax(CM, axis=0)] and [CM.argmax(axis=0)] *)
Definition amax0 (CM : matrix) : list Z :=
  map (fun c => zmax_list (column CM c)) (seq 0 (ncols CM)).

Definition argmax0 (CM : matrix) : list nat :=
  map (fun c => argmax_list (column CM c)) (seq 0 (ncols CM)).

(** [sum(l)] *)
Definition pysum (l : list Z) : Z := fold_left Z.add l 0.

(** [sum] of no column is the Python integer 0, and dividing it is a
    Python division; otherwise the sum is a numpy integer. *)
Definition getPerfectLevelSeq (seq : string) (p : Z) : result pyfloat :=
  let lenS := len seq in
  let* CM := getCongruenceMatrix seq p in
  let cols := amax0 CM in
  let sumMaxCols := pysum cols in
  match cols with
  | [] => let* PR := py_truediv sumMaxCols lenS in Ok (Fin PR)
  | _ :: _ => Ok (np_truediv (inject_Z sumMaxCols) lenS)
  end.

(** The inner loop of [getNDUSeq], over the columns of row [i], and the
    two nested loops. *)
Definition sq_dev_row (f : matrix) (avg : Q) (p : Z) (i : nat) (DU : Q) : result Q :=
  foldM (fun DU j =>
    let* x := getitem f i j in
    let diff := (inject_Z x - avg)%Q in
    Ok (DU + diff * diff)%Q) (nrange p) DU.

Definition sq_dev (f : matrix) (avg : Q) (p : Z) : result Q :=
  foldM (fun DU i => sq_dev_row f avg p i DU) (nrange 4) 0%Q.

(** After [avg] is computed [p] is at least 1, so the loops run and [DU]
    is a numpy float when it is divided. *)
Definition getNDUSeq (seq : string) (p : Z) : result pyfloat :=
  let n := len seq in
  let* f := getCongruenceMatrix seq p in
  let* avg := py_truediv n (4 * p) in
  let* DU := sq_dev f avg p in
  Ok (np_truediv DU n).

(** The inner loop of [getNDUSeqEquation] and the two nested loops. *)
Definition sq_sum_row (f : matrix) (p : Z) (i : nat) (sumV : Z) : result Z :=
  foldM (fun sumV j =>
    let* e := getitem f i j in
    Ok (sumV + e * e)) (nrange p) sumV.

Definition sq_sum (f : matrix) (p : Z) : result Z :=
  foldM (fun sumV i => sq_sum_row f p i sumV) (nrange 4) 0.

Definition getNDUSeqEquation (seq : string) (p : Z) : result pyfloat :=
  let n := len seq in
  let* f := getCongruenceMatrix seq p in
  let* sumV := sq_sum f p in
  let* c := py_truediv (n * n) (4 * p) in
  let DU := (inject_Z sumV - c)%Q in
  Ok (np_truediv DU n).


(** ** Reading the matrix in proofs *)

(** The entry at row [r] and column [c], 0 outside the matrix. *)
Definition cell (CM : matrix) (r c : nat) : Z :=
  match CM !! r with
  | Some row => default 0 (row !! c)
  | None => 0
  end.

Definition shape (CM : matrix) (R C : nat) : Prop :=
  length CM = R /\ Forall (fun row => length row = C) CM.

(** How many of the symbols [s], standing at positions [i], [i+1], ...,
    are counted in row [r] and fall in residue class [c] modulo [p]. *)
Fixpoint occ (p : Z) (r c : nat) (s : list ascii) (i : Z) : Z :=
  match s with
  | [] => 0
  | ch :: s' =>
      (if decide (bucket ch = r /\ Z.to_nat (i mod p) = c) then 1 else 0)
      + occ p r c s' (i + 1)
  end.

(** How many of the positions [i], [i+1], ..., [i + k - 1] fall in
    residue class [c] modulo [p]. *)
Fixpoint residues (p : Z) (c : nat) (k : nat) (i : Z) : Z :=
  match k with
  | O => 0
  | S k' => (if decide (Z.to_nat (i mod p) = c) then 1 else 0) + residues p c k' (i + 1)
  end.

(** The sum of column [c], and of all the cells. *)
Definition colsum (CM : matrix) (c : nat) : Z := pysum (column CM c).

Definition total (CM : matrix) : Z := pysum (map pysum CM).

(** [f 0 + f 1 + ... + f (n - 1)] *)
Fixpoint sumf (f : nat -> Z) (n : nat) : Z :=
  match n with
  | O => 0
  | S n' => sumf f n' + f n'
  end.

(** The positions of a sequence of length [n] in residue class [c]. *)
Definition positions_of_class (n p : Z) (c : nat) : list Z :=
  filter (fun i => i mod p = Z.of_nat c) (seqZ 0 n).

Definition floor_div (n p : Z) : Z := n / p.

Definition ceil_div (n p : Z) : Z := (n + p - 1) / p.

(** The sum of the squares of all the cells of a matrix with [C] columns. *)
Definition squares (CM : matrix) (C : nat) : Z :=
  sumf (fun r => sumf (fun c => cell CM r c * cell CM r c) C) 4.

(** Every residue class modulo [p] holds symbols of one row only. *)
Definition monochromatic (seq : string) (p : Z) : Prop :=
  forall (i j : nat) (a b : ascii),
    chars seq !! i = Some a -> chars seq !! j = Some b ->
    Z.of_nat i mod p = Z.of_nat j mod p -> bucket a = bucket b.

(** The largest entry of column [c]. *)
Definition colmax (CM : matrix) (c : nat) : Z := zmax_list (column CM c).

(** [m] stands at position [i] of [qs], nothing in [qs] is larger, and
    everything before position [i] is smaller. *)
Definition first_max (qs : list Q) (i : nat) (m : Q) : Prop :=
  qs !! i = Some m /\
  (forall j y, qs !! j = Some y -> (y <= m)%Q) /\
  (forall j y, (j < i)%nat -> qs !! j = Some y -> (y < m)%Q).

(** ** Period searches *)

(** [math.floor(lenS / 2)], capped at 100. *)
Definition default_limit (lenS : Z) : Z :=
  let mp := lenS / 2 in
  if 100 <? mp then 100 else mp.

Definition period_limit (lenS : Z) (mp : option Z) : Z :=
  match mp with
  | None => default_limit lenS
  | Some m => m
  end.

(** The loop body scores period [mp] at every turn, whatever [p] is. *)
Definition getMaxPRSeq (seq : string) : result (Z * pyfloat) :=
  let lenS := len seq in
  let mp := default_limit lenS in
  let* prs := mapM (fun _ : Z => getPerfectLevelSeq seq mp) (pyrange 2 mp) in
  let* maxpr := pymax prs in
  let* idx := pyindex maxpr prs in
  Ok (idx + 2, maxpr).

Definition getMaxNDUSeq (seq : string) (mp : option Z) : result (Z * pyfloat) :=
  let lenS := len seq in
  let mp := period_limit lenS mp in
  let* scores := mapM (getNDUSeq seq) (pyrange 2 mp) in
  let NDUs := Fin 0 :: scores in
  let* maxNDU := pymax NDUs in
  let* idx := pyindex maxNDU NDUs in
  Ok (idx + 1, maxNDU).

Definition getNDUAllSeq (seq : string) (mp : option Z) : result (list pyfloat) :=
  let lenS := len seq in
  let mp := period_limit lenS mp in
  let* scores := mapM (getNDUSeq seq) (pyrange 2 mp) in
  Ok (Fin 0 :: scores).

Definition getNDURangeSeq (seq : string) (p1 p2 : Z) : result (list pyfloat) :=
  mapM (getNDUSeq seq) (pyrange p1 (p2 + 1)).

(** The slice is [pt[l-3:l]] whatever [n] is. *)
Definition getLargests (ps : list pyfloat) (n : Z) : result (list pyfloat * list Z) :=
  let l := Z.of_nat (length ps) in
  let pt := pysorted ps in
  let ps_n := pyslice pt (l - 3) l in
  let* ps_idx := mapM (fun i => let* a := pyitem ps_n i in pyindex a ps) (pyrange 0 n) in
  Ok (ps_n, ps_idx).

Definition getTopMaxPeriods (seq : string) (p1 p2 n : Z) : result (list Z * Z) :=
  let* psRange := getNDURangeSeq seq p1 p2 in
  let* largests := getLargests psRange n in
  let maxIdx := largests.2 in
  let maxPeriods := map (fun x => x + p1) maxIdx in
  let* maxPeriod := pyitem maxPeriods (n - 1) in
  Ok (maxPeriods, maxPeriod).

Definition getPRRangeSeq (seq : string) (p1 p2 : Z) : result (list pyfloat) :=
  mapM (getPerfectLevelSeq seq) (pyrange p1 p2).

Definition getMaxPerfect (seq : string) (p1 p2 : Z) : result (Z * pyfloat) :=
  let* prRange := mapM (getPerfectLevelSeq seq) (pyrange p1 p2) in
  let* maxPR := pymax prRange in
  let* maxPRIdx := pyindex maxPR prRange in
  Ok (maxPRIdx + p1, maxPR).

Definition getTopMaxPerfects (seq : string) (p1 p2 n : Z) : result (list Z * Z) :=
  let* prRange := getPRRangeSeq seq p1 p2 in
  let* largests := getLargests prRange n in
  let maxIdx := largests.2 in
  let maxPeriods := map (fun x => x + p1) maxIdx in
  let* maxPeriod := pyitem maxPeriods (n - 1) in
  Ok (maxPeriods, maxPeriod).

(** ** Consensus repeat *)

Definition symbol (k : nat) : ascii :=
  match k with
  | 0%nat => "G"
  | 1%nat => "C"
  | 2%nat => "A"
  | _ => "T"
  end%char.

Definition getRepeatSeq (seq : string) (p : Z) : result string :=
  let* CM := getCongruenceMatrix seq p in
  let idx := argmax0 CM in
  let* refSeq := mapM (fun i => let* k := pyitem idx (Z.of_nat i) in Ok (symbol k))
                      (nrange p) in
  Ok (string_of_list_ascii refSeq).

(** ** Sliding windows *)

Definition getNDUWindowSeq (seq : string) (p : Z) (W : option Z) : result (list pyfloat) :=
  let lenS := len seq in
  let W := match W with None => 5 * p | Some w => w end in
  let e := lenS - W + 1 in
  mapM (fun i => let t := i + W in
                 let seqT := str_slice seq i t in
                 getNDUSeq seqT p) (pyrange 0 e).

(** ** Walks along the sequence *)

Definition getNDUWalkSeq (seq : string) (p : Z) : result (list pyfloat) :=
  let lenS := len seq in
  mapM (fun i => let seqT := str_slice seq 0 i in
                 getNDUSeq seqT p) (pyrange 1 lenS).

(** [np.zeros((r, c))], an array of floats as its list of rows. *)
Definition np_zeros2 (r c : Z) : result (list (list pyfloat)) :=
  if (r <? 0) || (c <? 0) then Raise ValueError
  else Ok (replicate (Z.to_nat r) (replicate (Z.to_nat c) (Fin 0))).

(** [M[i, :] = row] on an array with [L] columns: the row must have [L]
    entries, or one entry that is repeated. *)
Definition setrow (M : list (list pyfloat)) (i : nat) (row : list pyfloat) (L : nat)
  : result (list (list pyfloat)) :=
  match M !! i with
  | None => Raise IndexError
  | Some _ =>
      if (length row =? L)%nat then Ok (<[i := row]> M)
      else match row with
           | [x] => Ok (<[i := replicate L x]> M)
           | _ => Raise ValueError
           end
  end.

Definition getNDU2DWinSeq (seq : string) (W : Z) (mp : option Z)
  : result (list (list pyfloat)) :=
  let lenS := len seq in
  let L := lenS - W + 1 in
  let mp := period_limit lenS mp in
  let* ndu2DWin := np_zeros2 mp L in
  foldM (fun M i =>
           let* ndu := getNDUWindowSeq seq i (Some W) in
           setrow M (Z.to_nat i) ndu (Z.to_nat L)) (pyrange 1 mp) ndu2DWin.

(** ** Sums of rationals, for proofs *)

Fixpoint sumfQ (f : nat -> Q) (n : nat) : Q :=
  match n with
  | O => 0
  | S n' => sumfQ f n' + f n'
  end.

(** The squared deviation of a cell from [avg], and their sum over a
    matrix with [C] columns. *)
Definition dev2 (CM : matrix) (avg : Q) (r c : nat) : Q :=
  (inject_Z (cell CM r c) - avg) * (inject_Z (cell CM r c) - avg).

Definition deviation (CM : matrix) (avg : Q) (C : nat) : Q :=
  sumfQ (fun r => sumfQ (dev2 CM avg r) C) 4.

(** Every symbol outside G, C, A replaced by T. *)
Definition canonical (ch : ascii) : ascii := symbol (bucket ch).

Definition canonical_seq (s : string) : string :=
  string_of_list_ascii (map canonical (chars s)).

(** ** Sorted lists and first positions, for proofs *)

Inductive ascending : list Q -> Prop :=
| ascending_nil : ascending []
| ascending_cons (x : Q) (l : list Q) :
    Forall (fun y => (x <= y)%Q) l -> ascending l -> ascending (x :: l).

(** [k] is the first position of [qs] that holds a score equal to [v]. *)
Definition first_index (qs : list Q) (v : Q) (k : nat) : Prop :=
  (exists y, qs !! k = Some y /\ (y == v)%Q) /\
  (forall j y, (j < k)%nat -> qs !! j = Some y -> ~ (y == v)%Q).

(** * Properties *)

Example cm_ex : getCongruenceMatrix "ATCGATCGAT" 4 =
  Ok [[0;0;0;2]; [0;0;2;0]; [3;0;0;0]; [0;3;0;0]].
Proof. reflexivity. Qed.


(** ** The error monad *)

Lemma bind_Ok {A B : Type} (m : result A) (k : A -> result B) (a : A) :
  m = Ok a -> bind m k = k a.
Proof. intros ->. reflexivity. Qed.

Lemma bind_inv {A B : Type} (m : result A) (k : A -> result B) (b : B) :
  bind m k = Ok b -> exists a, m = Ok a /\ k a = Ok b.
Proof. destruct m as [a|e]; simpl; [eauto | discriminate]. Qed.

(** ** The congruence matrix counts occurrences *)

Lemma shape_zeros (R C : nat) : shape (zeros R C) R C.
Proof.
  split.
  - apply length_replicate.
  - apply Forall_replicate, length_replicate.
Qed.

Lemma cell_zeros (R C r c : nat) : cell (zeros R C) r c = 0.
Proof.
  unfold cell, zeros.
  destruct (_ !! r) as [row|] eqn:E; [|reflexivity].
  apply lookup_replicate in E as [-> _].
  destruct (_ !! c) as [v|] eqn:E'; [|reflexivity].
  apply lookup_replicate in E' as [-> _]. reflexivity.
Qed.

Lemma shape_row (CM : matrix) (R C r : nat) (row : list Z) :
  shape CM R C -> CM !! r = Some row -> length row = C.
Proof.
  intros [_ HF] E. rewrite Forall_lookup in HF. exact (HF _ _ E).
Qed.

Lemma getitem_cell (CM : matrix) (R C r c : nat) :
  shape CM R C -> (r < R)%nat -> (c < C)%nat -> getitem CM r c = Ok (cell CM r c).
Proof.
  intros Hs Hr Hc. unfold getitem, cell.
  destruct (CM !! r) as [row|] eqn:E.
  - pose proof (shape_row _ _ _ _ _ Hs E) as Hl.
    destruct (row !! c) as [v|] eqn:E'; [reflexivity|].
    apply lookup_ge_None in E'. lia.
  - apply lookup_ge_None in E. destruct Hs as [Hl _]. lia.
Qed.

Lemma incritem_cell (CM : matrix) (R C r c : nat) :
  shape CM R C -> (r < R)%nat -> (c < C)%nat ->
  exists CM', incritem CM r c = Ok CM' /\ shape CM' R C /\
    forall r' c', cell CM' r' c' =
                  cell CM r' c' + (if decide (r = r' /\ c = c') then 1 else 0).
Proof.
  intros Hs Hr Hc. unfold incritem.
  rewrite (getitem_cell _ _ _ _ _ Hs Hr Hc). simpl.
  eexists. split; [reflexivity|]. split.
  - destruct Hs as [Hl HF]. split.
    + rewrite length_alter. exact Hl.
    + apply Forall_alter; [exact HF|].
      intros row _ Hrow. rewrite length_insert. exact Hrow.
  - intros r' c'. unfold cell at 1 3.
    destruct (decide (r = r')) as [<-|Hne].
    + rewrite list_lookup_alter_eq.
      destruct (CM !! r) as [row|] eqn:E; simpl.
      * pose proof (shape_row _ _ _ _ _ Hs E) as Hl.
        destruct (decide (c = c')) as [<-|Hne'].
        -- rewrite list_lookup_insert_eq by lia. simpl.
           unfold cell. rewrite E.
           destruct (row !! c) as [v|] eqn:E'; simpl.
           ++ rewrite decide_True by auto. lia.
           ++ apply lookup_ge_None in E'. lia.
        -- rewrite list_lookup_insert_ne by auto.
           rewrite decide_False by (intros [_ ?]; auto). lia.
      * apply lookup_ge_None in E. destruct Hs as [Hl _]. lia.
    + rewrite list_lookup_alter_ne by auto.
      rewrite decide_False by (intros [? _]; auto). lia.
Qed.

Lemma cm_loop_occ (p : Z) (s : list ascii) :
  0 < p -> forall (i : Z) (CM : matrix),
  0 <= i -> shape CM 4 (Z.to_nat p) ->
  exists CM', cm_loop p s i CM = Ok CM' /\ shape CM' 4 (Z.to_nat p) /\
    forall r c, cell CM' r c = cell CM r c + occ p r c s i.
Proof.
  intros Hp. induction s as [|ch s IH]; intros i CM Hi Hs; simpl.
  - exists CM. split; [reflexivity|]. split; [exact Hs|]. intros; lia.
  - unfold pymod. destruct (Z.eqb_spec p 0) as [->|_]; [lia|]. simpl.
    assert (Hb : (bucket ch < 4)%nat).
    { unfold bucket. repeat destruct (Ascii.eqb _ _); lia. }
    assert (Hm : (Z.to_nat (i mod p) < Z.to_nat p)%nat).
    { pose proof (Z.mod_pos_bound i p Hp). lia. }
    destruct (incritem_cell CM _ _ _ _ Hs Hb Hm) as (CM1 & E1 & Hs1 & Hc1).
    rewrite E1. simpl.
    destruct (IH (i + 1) CM1 ltac:(lia) Hs1) as (CM2 & E2 & Hs2 & Hc2).
    exists CM2. split; [exact E2|]. split; [exact Hs2|].
    intros r c. rewrite Hc2, Hc1. lia.
Qed.

Lemma getCongruenceMatrix_occ (seq : string) (p : Z) :
  0 < p ->
  exists CM, getCongruenceMatrix seq p = Ok CM /\ shape CM 4 (Z.to_nat p) /\
    forall r c, cell CM r c = occ p r c (chars seq) 0.
Proof.
  intros Hp. unfold getCongruenceMatrix.
  destruct (Z.ltb_spec p 0) as [?|_]; [lia|].
  destruct (cm_loop_occ p (chars seq) Hp 0 (zeros 4 (Z.to_nat p)) ltac:(lia)
              (shape_zeros _ _)) as (CM & E & Hs & Hc).
  exists CM. split; [exact E|]. split; [exact Hs|].
  intros r c. rewrite Hc, cell_zeros. lia.
Qed.

(** ** Sums *)

Lemma fold_add_shift (l : list Z) (a : Z) :
  fold_left Z.add l a = a + fold_left Z.add l 0.
Proof.
  revert a. induction l as [|x l IH]; intros a; cbn [fold_left]; [lia|].
  rewrite (IH (a + x)), (IH (0 + x)). lia.
Qed.

Lemma pysum_cons (x : Z) (l : list Z) : pysum (x :: l) = x + pysum l.
Proof. unfold pysum. simpl. apply fold_add_shift. Qed.

Lemma pysum_nil : pysum [] = 0.
Proof. reflexivity. Qed.

Lemma sumf_ext (f g : nat -> Z) (n : nat) :
  (forall k, (k < n)%nat -> f k = g k) -> sumf f n = sumf g n.
Proof.
  induction n as [|n IH]; intros H; simpl; [reflexivity|].
  rewrite IH, (H n) by (intros; try apply H; lia). reflexivity.
Qed.

Lemma sumf_add (f g : nat -> Z) (n : nat) :
  sumf (fun k => f k + g k) n = sumf f n + sumf g n.
Proof. induction n as [|n IH]; simpl; lia. Qed.

Lemma sumf_zero (n : nat) : sumf (fun _ => 0) n = 0.
Proof. induction n as [|n IH]; simpl; lia. Qed.

Lemma sumf_swap (f : nat -> nat -> Z) (R C : nat) :
  sumf (fun r => sumf (f r) C) R = sumf (fun c => sumf (fun r => f r c) R) C.
Proof.
  induction R as [|R IH]; simpl.
  - symmetry. apply sumf_zero.
  - rewrite IH, <- sumf_add. reflexivity.
Qed.

Lemma sumf_le (f g : nat -> Z) (n : nat) :
  (forall k, (k < n)%nat -> f k <= g k) -> sumf f n <= sumf g n.
Proof.
  induction n as [|n IH]; intros H; simpl; [lia|].
  specialize (IH ltac:(intros; apply H; lia)). specialize (H n ltac:(lia)). lia.
Qed.

(** Termwise smaller sums are equal only when all the terms are. *)
Lemma sumf_le_eq (f g : nat -> Z) (n : nat) :
  (forall k, (k < n)%nat -> f k <= g k) -> sumf f n = sumf g n ->
  forall k, (k < n)%nat -> f k = g k.
Proof.
  induction n as [|n IH]; intros H E k Hk; [lia|].
  simpl in E.
  pose proof (sumf_le f g n ltac:(intros; apply H; lia)) as Hle.
  pose proof (H n ltac:(lia)) as Hn.
  destruct (decide (k = n)) as [->|Hne]; [lia|].
  apply IH; [intros; apply H; lia | lia | lia].
Qed.

Lemma sumf_indicator (m n : nat) :
  sumf (fun c => if decide (m = c) then 1 else 0) n = if decide (m < n)%nat then 1 else 0.
Proof.
  induction n as [|n IH]; cbn [sumf].
  - case_decide; [lia | reflexivity].
  - rewrite IH. repeat case_decide; lia.
Qed.

Lemma pysum_sumf (l : list Z) :
  pysum l = sumf (fun k => default 0 (l !! k)) (length l).
Proof.
  induction l as [|x l IH] using rev_ind; [reflexivity|].
  rewrite length_app. simpl. rewrite Nat.add_1_r. simpl.
  rewrite lookup_app_r, Nat.sub_diag by lia. simpl.
  rewrite (sumf_ext _ (fun k => default 0 (l !! k))).
  - rewrite <- IH. unfold pysum. rewrite fold_left_app. simpl. reflexivity.
  - intros k Hk. rewrite lookup_app_l by lia. reflexivity.
Qed.

Lemma pysum_map_sumf {A : Type} (g : A -> Z) (l : list A) (d : A) :
  pysum (map g l) = sumf (fun k => g (nth k l d)) (length l).
Proof.
  rewrite pysum_sumf, length_map. apply sumf_ext. intros k Hk.
  rewrite list_lookup_fmap.
  destruct (l !! k) as [x|] eqn:E.
  - simpl. f_equal. symmetry. apply nth_lookup_Some with (d := d) in E. exact E.
  - apply lookup_ge_None in E. lia.
Qed.

Lemma sumf_ge_first (f : nat -> Z) (n : nat) :
  (0 < n)%nat -> (forall k, (k < n)%nat -> 0 <= f k) -> f 0%nat <= sumf f n.
Proof.
  induction n as [|n IH]; intros Hn H; [lia|]. cbn [sumf].
  destruct n as [|n]; [simpl; lia|].
  specialize (IH ltac:(lia) ltac:(intros; apply H; lia)).
  specialize (H (S n) ltac:(lia)). lia.
Qed.

(** ** Rows, columns and totals of a four-row matrix *)

Lemma shape_four (CM : matrix) (C : nat) :
  shape CM 4 C ->
  exists r0 r1 r2 r3, CM = [r0; r1; r2; r3] /\
    length r0 = C /\ length r1 = C /\ length r2 = C /\ length r3 = C.
Proof.
  intros [Hl HF].
  destruct CM as [|r0 [|r1 [|r2 [|r3 [|r4 CM]]]]]; simpl in Hl; try lia.
  exists r0, r1, r2, r3. split; [reflexivity|].
  repeat (apply Forall_cons in HF as [? HF]). auto.
Qed.

Lemma column_cells (CM : matrix) (C c : nat) :
  shape CM 4 C -> (c < C)%nat ->
  column CM c = [cell CM 0 c; cell CM 1 c; cell CM 2 c; cell CM 3 c].
Proof.
  intros Hs Hc.
  destruct (shape_four CM C Hs) as (r0 & r1 & r2 & r3 & -> & H0 & H1 & H2 & H3).
  unfold column, cell. simpl.
  destruct (lookup_lt_is_Some_2 r0 c ltac:(lia)) as [v0 ->].
  destruct (lookup_lt_is_Some_2 r1 c ltac:(lia)) as [v1 ->].
  destruct (lookup_lt_is_Some_2 r2 c ltac:(lia)) as [v2 ->].
  destruct (lookup_lt_is_Some_2 r3 c ltac:(lia)) as [v3 ->].
  reflexivity.
Qed.

Lemma colsum_cells (CM : matrix) (C c : nat) :
  shape CM 4 C -> (c < C)%nat ->
  colsum CM c = cell CM 0 c + cell CM 1 c + cell CM 2 c + cell CM 3 c.
Proof.
  intros Hs Hc. unfold colsum. rewrite (column_cells CM C c Hs Hc).
  rewrite !pysum_cons, pysum_nil. lia.
Qed.

Lemma ncols_shape (CM : matrix) (C : nat) : shape CM 4 C -> ncols CM = C.
Proof.
  intros Hs. destruct (shape_four CM C Hs) as (r0 & r1 & r2 & r3 & -> & H0 & _).
  exact H0.
Qed.

Lemma total_colsums (CM : matrix) (C : nat) :
  shape CM 4 C -> total CM = sumf (colsum CM) C.
Proof.
  intros Hs.
  rewrite (sumf_ext (colsum CM)
             (fun c => cell CM 0 c + cell CM 1 c + cell CM 2 c + cell CM 3 c))
    by (intros; apply (colsum_cells CM C); auto).
  destruct (shape_four CM C Hs) as (r0 & r1 & r2 & r3 & -> & H0 & H1 & H2 & H3).
  unfold total. simpl map. rewrite !pysum_cons, pysum_nil.
  rewrite !sumf_add, (pysum_sumf r0), (pysum_sumf r1), (pysum_sumf r2), (pysum_sumf r3).
  rewrite H0, H1, H2, H3. unfold cell. simpl. lia.
Qed.

(** ** Counting positions by residue class *)

Lemma bucket_lt (ch : ascii) : (bucket ch < 4)%nat.
Proof. unfold bucket. repeat destruct (Ascii.eqb _ _); lia. Qed.

Lemma occ_nonneg (p : Z) (r c : nat) (s : list ascii) (i : Z) : 0 <= occ p r c s i.
Proof.
  revert i. induction s as [|ch s IH]; intros i; cbn [occ]; [lia|].
  specialize (IH (i + 1)). case_decide; lia.
Qed.

Lemma occ_rows (p : Z) (c : nat) (s : list ascii) (i : Z) :
  occ p 0 c s i + occ p 1 c s i + occ p 2 c s i + occ p 3 c s i
  = residues p c (length s) i.
Proof.
  revert i. induction s as [|ch s IH]; intros i; cbn [occ residues length]; [lia|].
  rewrite <- IH. pose proof (bucket_lt ch).
  repeat case_decide; lia.
Qed.

Lemma residues_total (p : Z) (k : nat) (i : Z) :
  0 < p -> sumf (fun c => residues p c k i) (Z.to_nat p) = Z.of_nat k.
Proof.
  intros Hp. revert i. induction k as [|k IH]; intros i; cbn [residues].
  - apply sumf_zero.
  - rewrite sumf_add, IH, sumf_indicator.
    pose proof (Z.mod_pos_bound i p Hp). case_decide; lia.
Qed.

Lemma residues_filter (p : Z) (c : nat) (k : nat) (i : Z) :
  0 < p ->
  Z.of_nat (length (filter (fun j => j mod p = Z.of_nat c) (seqZ i (Z.of_nat k))))
  = residues p c k i.
Proof.
  intros Hp. revert i. induction k as [|k IH]; intros i; cbn [residues].
  - reflexivity.
  - rewrite seqZ_cons by lia. rewrite filter_cons.
    replace (Z.pred (Z.of_nat (S k))) with (Z.of_nat k) by lia.
    replace (Z.succ i) with (i + 1) by lia.
    pose proof (Z.mod_pos_bound i p Hp).
    repeat case_decide; cbn [length]; rewrite <- IH; lia.
Qed.

Lemma div_pred (x p : Z) :
  0 < p -> (x - 1) / p = x / p - (if decide (x mod p = 0) then 1 else 0).
Proof.
  intros Hp. pose proof (Z.div_mod x p ltac:(lia)) as E.
  pose proof (Z.mod_pos_bound x p Hp) as B.
  case_decide as H0.
  - symmetry. apply (Z.div_unique (x - 1) p (x / p - 1) (p - 1)); lia.
  - symmetry. apply (Z.div_unique (x - 1) p (x / p - 0) (x mod p - 1)); lia.
Qed.

Lemma shifted_mod_zero (i p : Z) (c : nat) :
  0 < p -> Z.of_nat c < p ->
  (i + p - Z.of_nat c) mod p = 0 <-> Z.to_nat (i mod p) = c.
Proof.
  intros Hp Hc. pose proof (Z.mod_pos_bound i p Hp) as B.
  pose proof (Z.div_mod i p ltac:(lia)) as E.
  split; intros H.
  - apply Z.mod_divide in H; [|lia]. destruct H as [q Hq].
    assert (i mod p - Z.of_nat c = p * (q - 1 - i / p)) by lia.
    assert (q - 1 - i / p = 0) by nia. lia.
  - apply Z.mod_divide; [lia|]. exists (i / p + 1). lia.
Qed.

Lemma residues_closed (p : Z) (c : nat) (k : nat) (i : Z) :
  0 < p -> Z.of_nat c < p ->
  residues p c k i
  = (i + Z.of_nat k + p - 1 - Z.of_nat c) / p - (i + p - 1 - Z.of_nat c) / p.
Proof.
  intros Hp Hc. revert i. induction k as [|k IH]; intros i; cbn [residues].
  - replace (i + Z.of_nat 0 + p - 1 - Z.of_nat c) with (i + p - 1 - Z.of_nat c) by lia.
    lia.
  - rewrite IH.
    replace (i + 1 + Z.of_nat k + p - 1 - Z.of_nat c)
      with (i + Z.of_nat (S k) + p - 1 - Z.of_nat c) by lia.
    replace (i + 1 + p - 1 - Z.of_nat c) with (i + p - Z.of_nat c) by lia.
    replace (i + p - 1 - Z.of_nat c) with (i + p - Z.of_nat c - 1) by lia.
    rewrite (div_pred (i + p - Z.of_nat c) p Hp).
    pose proof (shifted_mod_zero i p c Hp Hc).
    repeat case_decide; try lia; tauto.
Qed.

Lemma residues_floor_ceil (p : Z) (c : nat) (k : nat) :
  0 < p -> Z.of_nat c < p ->
  residues p c k 0 = floor_div (Z.of_nat k) p \/
  residues p c k 0 = ceil_div (Z.of_nat k) p.
Proof.
  intros Hp Hc. rewrite (residues_closed p c k 0 Hp Hc).
  unfold floor_div, ceil_div.
  rewrite (Z.div_small (0 + p - 1 - Z.of_nat c) p) by lia.
  set (n := Z.of_nat k).
  assert (H1 : n / p <= (0 + n + p - 1 - Z.of_nat c) / p)
    by (apply Z.div_le_mono; lia).
  assert (H2 : (0 + n + p - 1 - Z.of_nat c) / p <= (n + p - 1) / p)
    by (apply Z.div_le_mono; lia).
  assert (H3 : (n + p - 1) / p <= (n + 1 * p) / p)
    by (apply Z.div_le_mono; lia).
  rewrite Z.div_add in H3 by lia. lia.
Qed.

Lemma cells_nonneg (CM : matrix) :
  (forall r c, 0 <= cell CM r c) -> Forall (Forall (fun v => 0 <= v)) CM.
Proof.
  intros H. apply Forall_lookup. intros r row Er.
  apply Forall_lookup. intros c v Ec.
  specialize (H r c). unfold cell in H. rewrite Er, Ec in H. exact H.
Qed.

(** C3: for a period [p >= 1] the congruence matrix is a 4 x p table of
    non-negative counts whose cells sum to the length of the sequence, and
    the sum of column [c] is the number of positions [i] of the sequence
    with [i mod p = c], which is the floor or the ceiling of [n / p]. *)
Theorem getCongruenceMatrix_invariants (seq : string) (p : Z) :
  1 <= p ->
  exists CM, getCongruenceMatrix seq p = Ok CM /\
    shape CM 4 (Z.to_nat p) /\
    Forall (Forall (fun v => 0 <= v)) CM /\
    total CM = len seq /\
    forall c : nat, Z.of_nat c < p ->
      colsum CM c = Z.of_nat (length (positions_of_class (len seq) p c)) /\
      (colsum CM c = floor_div (len seq) p \/ colsum CM c = ceil_div (len seq) p).
Proof.
  intros Hp.
  destruct (getCongruenceMatrix_occ seq p ltac:(lia)) as (CM & E & Hs & Hc).
  exists CM. split; [exact E|]. split; [exact Hs|].
  assert (Hcol : forall c : nat, Z.of_nat c < p ->
            colsum CM c = residues p c (length (chars seq)) 0).
  { intros c Hlt. rewrite (colsum_cells CM _ c Hs) by lia.
    rewrite !Hc. apply occ_rows. }
  split; [|split].
  - apply cells_nonneg. intros r c. rewrite Hc. apply occ_nonneg.
  - rewrite (total_colsums CM _ Hs).
    rewrite (sumf_ext _ (fun c => residues p c (length (chars seq)) 0))
      by (intros; apply Hcol; lia).
    rewrite residues_total by lia. reflexivity.
  - intros c Hlt. rewrite (Hcol c Hlt). unfold positions_of_class, len. split.
    + symmetry. apply residues_filter. lia.
    + apply residues_floor_ceil; lia.
Qed.

Lemma getCongruenceMatrix_invariants_witness :
  exists CM, getCongruenceMatrix "ATCGATCGAT" 4 = Ok CM /\
    shape CM 4 (Z.to_nat 4) /\
    Forall (Forall (fun v => 0 <= v)) CM /\
    total CM = len "ATCGATCGAT" /\
    forall c : nat, Z.of_nat c < 4 ->
      colsum CM c = Z.of_nat (length (positions_of_class (len "ATCGATCGAT") 4 c)) /\
      (colsum CM c = floor_div (len "ATCGATCGAT") 4 \/
       colsum CM c = ceil_div (len "ATCGATCGAT") 4).
Proof. apply (getCongruenceMatrix_invariants "ATCGATCGAT" 4). lia. Defined.

(** ** The two NDU formulas *)

Lemma foldM_app {A S : Type} (f : S -> A -> result S) (xs ys : list A) (s : S) :
  foldM f (xs ++ ys) s = let* s' := foldM f xs s in foldM f ys s'.
Proof.
  revert s. induction xs as [|x xs IH]; intros s; simpl; [reflexivity|].
  destruct (f s x) as [s'|e]; simpl; [apply IH | reflexivity].
Qed.

Lemma foldM_seq_S {S : Type} (f : S -> nat -> result S) (n : nat) (s : S) :
  foldM f (seq 0 (Datatypes.S n)) s = let* s' := foldM f (seq 0 n) s in f s' n.
Proof.
  rewrite seq_S, foldM_app. simpl.
  destruct (foldM f (seq 0 n) s) as [s'|e]; simpl; [|reflexivity].
  destruct (f s' n); reflexivity.
Qed.

Lemma sq_sum_row_cells (f : matrix) (C : nat) (i : nat) (sumV : Z) :
  shape f 4 C -> (i < 4)%nat -> forall k, (k <= C)%nat ->
  foldM (fun sumV j => let* e := getitem f i j in Ok (sumV + e * e)) (seq 0 k) sumV
  = Ok (sumV + sumf (fun c => cell f i c * cell f i c) k).
Proof.
  intros Hs Hi. induction k as [|k IH]; intros Hk.
  - simpl. f_equal. lia.
  - rewrite foldM_seq_S, IH by lia. simpl.
    rewrite (getitem_cell f 4 C i k Hs Hi) by lia. simpl. f_equal. lia.
Qed.

Lemma sq_sum_row_ok (f : matrix) (p : Z) (i : nat) (sumV : Z) :
  shape f 4 (Z.to_nat p) -> (i < 4)%nat ->
  sq_sum_row f p i sumV
  = Ok (sumV + sumf (fun c => cell f i c * cell f i c) (Z.to_nat p)).
Proof.
  intros Hs Hi. unfold sq_sum_row, nrange.
  apply (sq_sum_row_cells f (Z.to_nat p)); auto.
Qed.

Lemma sq_sum_squares (f : matrix) (p : Z) :
  shape f 4 (Z.to_nat p) -> sq_sum f p = Ok (squares f (Z.to_nat p)).
Proof.
  intros Hs. unfold sq_sum, nrange, squares.
  change (Z.to_nat 4) with 4%nat. simpl seq. cbn [foldM].
  rewrite (sq_sum_row_ok f p 0 _ Hs) by lia. cbn [bind].
  rewrite (sq_sum_row_ok f p 1 _ Hs) by lia. cbn [bind].
  rewrite (sq_sum_row_ok f p 2 _ Hs) by lia. cbn [bind].
  rewrite (sq_sum_row_ok f p 3 _ Hs) by lia. cbn [bind].
  f_equal.
Qed.

Lemma sq_dev_row_cells (f : matrix) (avg : Q) (C : nat) (i : nat) (DU : Q) :
  shape f 4 C -> (i < 4)%nat -> forall k, (k <= C)%nat ->
  exists q,
    foldM (fun DU j => let* x := getitem f i j in
                       let diff := (inject_Z x - avg)%Q in
                       Ok (DU + diff * diff)%Q) (seq 0 k) DU = Ok q /\
    (q == DU + inject_Z (sumf (fun c => cell f i c * cell f i c)%Z k)
           - (2 # 1) * avg * inject_Z (sumf (cell f i) k)
           + inject_Z (Z.of_nat k) * avg * avg)%Q.
Proof.
  intros Hs Hi. induction k as [|k IH]; intros Hk.
  - exists DU. split; [reflexivity|]. simpl. ring.
  - destruct (IH ltac:(lia)) as (q & E & Hq).
    rewrite foldM_seq_S, E. simpl bind.
    rewrite (getitem_cell f 4 C i k Hs Hi) by lia. simpl bind.
    eexists. split; [reflexivity|].
    rewrite Hq. cbn [sumf].
    rewrite Nat2Z.inj_succ. unfold Z.succ.
    rewrite !inject_Z_plus, !inject_Z_mult. ring.
Qed.

Lemma sq_dev_closed (f : matrix) (avg : Q) (p : Z) :
  shape f 4 (Z.to_nat p) ->
  exists q, sq_dev f avg p = Ok q /\
    (q == inject_Z (squares f (Z.to_nat p))
          - (2 # 1) * avg * inject_Z (total f)
          + inject_Z (4 * Z.of_nat (Z.to_nat p)) * avg * avg)%Q.
Proof.
  intros Hs. set (C := Z.to_nat p) in *.
  assert (Ht : total f = sumf (fun r => sumf (cell f r) C) 4).
  { rewrite (total_colsums f C Hs), sumf_swap. apply sumf_ext.
    intros c Hc. rewrite (colsum_cells f C c Hs Hc). simpl. lia. }
  assert (Hrow : forall i DU, (i < 4)%nat -> exists q,
            sq_dev_row f avg p i DU = Ok q /\
            (q == DU + inject_Z (sumf (fun c => cell f i c * cell f i c)%Z C)
                  - (2 # 1) * avg * inject_Z (sumf (cell f i) C)
                  + inject_Z (Z.of_nat C) * avg * avg)%Q).
  { intros i DU Hi. unfold sq_dev_row, nrange. fold C.
    apply (sq_dev_row_cells f avg C i DU Hs Hi C). lia. }
  unfold sq_dev, nrange.
  change (Z.to_nat 4) with 4%nat. simpl seq. cbn [foldM].
  destruct (Hrow 0%nat 0%Q ltac:(lia)) as (q0 & E0 & H0). rewrite E0. cbn [bind].
  destruct (Hrow 1%nat q0 ltac:(lia)) as (q1 & E1 & H1). rewrite E1. cbn [bind].
  destruct (Hrow 2%nat q1 ltac:(lia)) as (q2 & E2 & H2). rewrite E2. cbn [bind].
  destruct (Hrow 3%nat q2 ltac:(lia)) as (q3 & E3 & H3). rewrite E3. cbn [bind].
  exists q3. split; [reflexivity|].
  rewrite H3, H2, H1, H0, Ht. unfold squares. cbn [sumf].
  rewrite !inject_Z_plus, !inject_Z_mult. simpl (inject_Z 0). simpl (inject_Z 4). ring.
Qed.

Lemma len_pos (seq : string) : seq <> ""%string -> 0 < len seq.
Proof. destruct seq; [congruence|]. unfold len, chars. simpl. lia. Qed.

Lemma len_nonneg (seq : string) : 0 <= len seq.
Proof. unfold len. lia. Qed.

Lemma getCongruenceMatrix_total (seq : string) (p : Z) :
  0 < p ->
  exists CM, getCongruenceMatrix seq p = Ok CM /\ shape CM 4 (Z.to_nat p) /\
    (forall r c, cell CM r c = occ p r c (chars seq) 0) /\
    total CM = len seq.
Proof.
  intros Hp.
  destruct (getCongruenceMatrix_occ seq p Hp) as (CM & E & Hs & Hc).
  exists CM. split; [exact E|]. split; [exact Hs|]. split; [exact Hc|].
  rewrite (total_colsums CM _ Hs).
  rewrite (sumf_ext _ (fun c => residues p c (length (chars seq)) 0)).
  - rewrite residues_total by lia. reflexivity.
  - intros c Hlt. rewrite (colsum_cells CM _ c Hs) by lia.
    rewrite !Hc. apply occ_rows.
Qed.

Lemma py_truediv_ok (a b : Z) :
  b <> 0 -> py_truediv a b = Ok (inject_Z a / inject_Z b)%Q.
Proof. intros Hb. unfold py_truediv. destruct (Z.eqb_spec b 0); [lia|reflexivity]. Qed.

Lemma np_truediv_fin (x : Q) (n : Z) :
  n <> 0 -> np_truediv x n = Fin (x / inject_Z n).
Proof. intros Hn. unfold np_truediv. destruct (Z.eqb_spec n 0); [lia|reflexivity]. Qed.

Lemma inject_Z_nonzero (z : Z) : z <> 0 -> ~ (inject_Z z == 0)%Q.
Proof. intros Hz H. unfold Qeq in H. simpl in H. lia. Qed.

(** What the two functions compute for a period [p >= 1], on any
    sequence: the congruence matrix [CM] and the two numerators. *)
Lemma getNDUSeq_value (seq : string) (p : Z) :
  1 <= p ->
  exists CM DU,
    getCongruenceMatrix seq p = Ok CM /\
    getNDUSeq seq p = Ok (np_truediv DU (len seq)) /\
    getNDUSeqEquation seq p =
      Ok (np_truediv (inject_Z (squares CM (Z.to_nat p))
                      - inject_Z (len seq * len seq) / inject_Z (4 * p)) (len seq)) /\
    (DU == inject_Z (squares CM (Z.to_nat p))
           - inject_Z (len seq * len seq) / inject_Z (4 * p))%Q.
Proof.
  intros Hp.
  destruct (getCongruenceMatrix_total seq p ltac:(lia)) as (CM & E & Hs & _ & Ht).
  set (avg := (inject_Z (len seq) / inject_Z (4 * p))%Q).
  destruct (sq_dev_closed CM avg p Hs) as (DU & Ed & Hd).
  exists CM, DU. split; [exact E|]. split; [|split].
  - unfold getNDUSeq. rewrite E. cbn [bind].
    rewrite py_truediv_ok by lia. cbn [bind]. fold avg. rewrite Ed. reflexivity.
  - unfold getNDUSeqEquation. rewrite E. cbn [bind].
    rewrite (sq_sum_squares CM p Hs). cbn [bind].
    rewrite py_truediv_ok by lia. reflexivity.
  - rewrite Hd, Ht. replace (Z.of_nat (Z.to_nat p)) with p by lia.
    unfold avg. rewrite !inject_Z_mult.
    pose proof (inject_Z_nonzero p ltac:(lia)) as Hnz.
    simpl (inject_Z 4). field. exact Hnz.
Qed.

(** C2: on a non-empty sequence and for a period [p >= 1], the sum of
    squared deviations from [n / (4 p)] divided by [n] ([getNDUSeq]) and the
    closed form ([getNDUSeqEquation]) are the same number in exact
    arithmetic. *)
Theorem getNDUSeq_getNDUSeqEquation (seq : string) (p : Z) :
  seq <> ""%string -> 1 <= p ->
  exists q1 q2,
    getNDUSeq seq p = Ok (Fin q1) /\
    getNDUSeqEquation seq p = Ok (Fin q2) /\
    (q1 == q2)%Q.
Proof.
  intros Hne Hp. pose proof (len_pos seq Hne) as Hn.
  destruct (getNDUSeq_value seq p Hp) as (CM & DU & _ & E1 & E2 & Hq).
  rewrite np_truediv_fin in E1, E2 by lia.
  eexists. eexists. split; [exact E1|]. split; [exact E2|].
  rewrite Hq. reflexivity.
Qed.

Lemma getNDUSeq_getNDUSeqEquation_witness :
  exists q1 q2,
    getNDUSeq "ATCGATCGAT" 4 = Ok (Fin q1) /\
    getNDUSeqEquation "ATCGATCGAT" 4 = Ok (Fin q2) /\
    (q1 == q2)%Q.
Proof.
  apply (getNDUSeq_getNDUSeqEquation "ATCGATCGAT" 4); [discriminate | lia].
Defined.

(** ** The perfect level *)

Lemma occ_pos (p : Z) (r c : nat) (s : list ascii) (i : Z) :
  0 < occ p r c s i <->
  exists (k : nat) (ch : ascii),
    s !! k = Some ch /\ bucket ch = r /\ Z.to_nat ((i + Z.of_nat k) mod p) = c.
Proof.
  revert i. induction s as [|ch s IH]; intros i; cbn [occ].
  - split; [lia|]. intros (k & ch & E & _). rewrite lookup_nil in E. discriminate.
  - pose proof (occ_nonneg p r c s (i + 1)) as Hn. split.
    + intros H. case_decide as Hd.
      * exists 0%nat, ch. destruct Hd as [Hb Hm]. split; [reflexivity|].
        split; [exact Hb|]. rewrite Z.add_0_r. exact Hm.
      * assert (H' : 0 < occ p r c s (i + 1)) by lia.
        apply IH in H'. destruct H' as (k & ch' & E & Hb & Hm).
        exists (S k), ch'. split; [exact E|]. split; [exact Hb|].
        rewrite <- Hm. f_equal. f_equal. lia.
    + intros (k & ch' & E & Hb & Hm). destruct k as [|k].
      * simpl in E. injection E as <-. rewrite Z.add_0_r in Hm.
        rewrite decide_True by auto. lia.
      * simpl in E.
        assert (0 < occ p r c s (i + 1)).
        { apply IH. exists k, ch'. split; [exact E|]. split; [exact Hb|].
          rewrite <- Hm. f_equal. f_equal. lia. }
        case_decide; lia.
Qed.

Lemma pysum_amax0 (CM : matrix) (C : nat) :
  shape CM 4 C -> pysum (amax0 CM) = sumf (colmax CM) C.
Proof.
  intros Hs. unfold amax0. rewrite (ncols_shape CM C Hs).
  rewrite (pysum_map_sumf _ _ 0%nat), length_seq.
  apply sumf_ext. intros k Hk. rewrite seq_nth by lia. reflexivity.
Qed.

Lemma amax0_length (CM : matrix) (C : nat) :
  shape CM 4 C -> length (amax0 CM) = C.
Proof.
  intros Hs. unfold amax0. rewrite length_map, length_seq. apply ncols_shape, Hs.
Qed.

Lemma colmax_cells (CM : matrix) (C c : nat) :
  shape CM 4 C -> (c < C)%nat ->
  colmax CM c = Z.max (Z.max (Z.max (cell CM 0 c) (cell CM 1 c)) (cell CM 2 c)) (cell CM 3 c).
Proof.
  intros Hs Hc. unfold colmax. rewrite (column_cells CM C c Hs Hc). reflexivity.
Qed.

Lemma colmax_le_colsum (CM : matrix) (C c : nat) :
  shape CM 4 C -> (c < C)%nat -> (forall r, 0 <= cell CM r c) ->
  colmax CM c <= colsum CM c /\ 0 <= colmax CM c.
Proof.
  intros Hs Hc Hn. rewrite (colmax_cells CM C c Hs Hc), (colsum_cells CM C c Hs Hc).
  pose proof (Hn 0%nat). pose proof (Hn 1%nat). pose proof (Hn 2%nat). pose proof (Hn 3%nat).
  lia.
Qed.

(** A column's maximum is its sum exactly when no two rows are positive. *)
Lemma colmax_eq_colsum (CM : matrix) (C c : nat) :
  shape CM 4 C -> (c < C)%nat -> (forall r, 0 <= cell CM r c) ->
  colmax CM c = colsum CM c <->
  forall r1 r2, (r1 < 4)%nat -> (r2 < 4)%nat ->
    0 < cell CM r1 c -> 0 < cell CM r2 c -> r1 = r2.
Proof.
  intros Hs Hc Hn. rewrite (colmax_cells CM C c Hs Hc), (colsum_cells CM C c Hs Hc).
  pose proof (Hn 0%nat) as N0. pose proof (Hn 1%nat) as N1.
  pose proof (Hn 2%nat) as N2. pose proof (Hn 3%nat) as N3.
  split.
  - intros E r1 r2 L1 L2 P1 P2.
    destruct r1 as [|[|[|[|r1]]]]; try lia;
      destruct r2 as [|[|[|[|r2]]]]; try lia.
  - intros H.
    pose proof (H 0%nat 1%nat). pose proof (H 0%nat 2%nat). pose proof (H 0%nat 3%nat).
    pose proof (H 1%nat 2%nat). pose proof (H 1%nat 3%nat). pose proof (H 2%nat 3%nat).
    lia.
Qed.

Lemma monochromatic_columns (seq : string) (p : Z) (CM : matrix) :
  0 < p -> shape CM 4 (Z.to_nat p) ->
  (forall r c, cell CM r c = occ p r c (chars seq) 0) ->
  monochromatic seq p <->
  forall c, (c < Z.to_nat p)%nat -> colmax CM c = colsum CM c.
Proof.
  intros Hp Hs Hc.
  assert (Hn : forall c r, 0 <= cell CM r c) by (intros; rewrite Hc; apply occ_nonneg).
  split.
  - intros Hm c Hlt. apply (colmax_eq_colsum CM _ c Hs Hlt (Hn c)).
    intros r1 r2 _ _ P1 P2. rewrite Hc in P1, P2.
    apply occ_pos in P1 as (i & a & Ei & Ba & Ri).
    apply occ_pos in P2 as (j & b & Ej & Bb & Rj).
    rewrite <- Ba, <- Bb. apply (Hm i j a b Ei Ej).
    rewrite Z.add_0_l in Ri, Rj.
    pose proof (Z.mod_pos_bound (Z.of_nat i) p Hp).
    pose proof (Z.mod_pos_bound (Z.of_nat j) p Hp).
    lia.
  - intros H i j a b Ei Ej Hr.
    pose proof (Z.mod_pos_bound (Z.of_nat i) p Hp) as Bi.
    set (c := Z.to_nat (Z.of_nat i mod p)).
    assert (Hlt : (c < Z.to_nat p)%nat) by (unfold c; lia).
    apply (proj1 (colmax_eq_colsum CM _ c Hs Hlt (Hn c)) (H c Hlt));
      try apply bucket_lt; rewrite Hc; apply occ_pos.
    + exists i, a. split; [exact Ei|]. split; [reflexivity|].
      rewrite Z.add_0_l. reflexivity.
    + exists j, b. split; [exact Ej|]. split; [reflexivity|].
      rewrite Z.add_0_l, <- Hr. reflexivity.
Qed.

(** What [getPerfectLevelSeq] computes for a period [p >= 1], on any
    sequence. *)
Lemma getPerfectLevelSeq_value (seq : string) (p : Z) :
  1 <= p ->
  exists CM,
    getCongruenceMatrix seq p = Ok CM /\ shape CM 4 (Z.to_nat p) /\
    (forall r c, cell CM r c = occ p r c (chars seq) 0) /\
    total CM = len seq /\
    getPerfectLevelSeq seq p
    = Ok (np_truediv (inject_Z (sumf (colmax CM) (Z.to_nat p))) (len seq)).
Proof.
  intros Hp.
  destruct (getCongruenceMatrix_total seq p ltac:(lia)) as (CM & E & Hs & Hc & Ht).
  exists CM. split; [exact E|]. split; [exact Hs|]. split; [exact Hc|].
  split; [exact Ht|].
  unfold getPerfectLevelSeq. rewrite E. cbn [bind].
  pose proof (amax0_length CM _ Hs) as Hl.
  destruct (amax0 CM) as [|z l] eqn:Ea.
  - simpl in Hl. lia.
  - rewrite <- Ea, (pysum_amax0 CM _ Hs). reflexivity.
Qed.

Lemma first_column_positive (seq : string) (p : Z) (CM : matrix) :
  0 < p -> seq <> ""%string -> shape CM 4 (Z.to_nat p) ->
  (forall r c, cell CM r c = occ p r c (chars seq) 0) ->
  1 <= colmax CM 0.
Proof.
  intros Hp Hne Hs Hc.
  assert (Hlt : (0 < Z.to_nat p)%nat) by lia.
  rewrite (colmax_cells CM _ 0 Hs Hlt).
  destruct seq as [|a s]; [congruence|].
  assert (P : 0 < cell CM (bucket a) 0).
  { rewrite Hc. apply occ_pos. exists 0%nat, a.
    split; [reflexivity|]. split; [reflexivity|].
    rewrite Z.add_0_l. simpl. rewrite Z.mod_0_l by lia. reflexivity. }
  pose proof (bucket_lt a) as Hb.
  destruct (bucket a) as [|[|[|[|b]]]]; lia.
Qed.

Lemma ratio_one (a n : Z) :
  0 < n -> (inject_Z a / inject_Z n == 1)%Q <-> a = n.
Proof.
  intros Hn. pose proof (inject_Z_nonzero n ltac:(lia)) as Hnz.
  assert (Ha : (inject_Z a == inject_Z a / inject_Z n * inject_Z n)%Q)
    by (field; exact Hnz).
  split.
  - intros H. rewrite H, Qmult_1_l in Ha. unfold Qeq in Ha. simpl in Ha. lia.
  - intros ->. field. exact Hnz.
Qed.

(** C4: on a non-empty sequence and for a period [p >= 1] the perfect
    level lies in (0, 1], and it is 1 exactly when every residue class is
    monochromatic. *)
Theorem getPerfectLevelSeq_range (seq : string) (p : Z) :
  seq <> ""%string -> 1 <= p ->
  exists PR,
    getPerfectLevelSeq seq p = Ok (Fin PR) /\
    (0 < PR)%Q /\ (PR <= 1)%Q /\
    ((PR == 1)%Q <-> monochromatic seq p).
Proof.
  intros Hne Hp. pose proof (len_pos seq Hne) as Hn.
  destruct (getPerfectLevelSeq_value seq p Hp) as (CM & E & Hs & Hc & Ht & Ev).
  rewrite np_truediv_fin in Ev by lia.
  set (C := Z.to_nat p) in *. set (SM := sumf (colmax CM) C) in *.
  assert (Hnn : forall c r, 0 <= cell CM r c)
    by (intros; rewrite Hc; apply occ_nonneg).
  assert (Hle : forall c, (c < C)%nat -> colmax CM c <= colsum CM c)
    by (intros c Hlt; apply (colmax_le_colsum CM C c Hs Hlt (Hnn c))).
  assert (Hup : SM <= len seq).
  { rewrite <- Ht, (total_colsums CM C Hs). apply sumf_le. exact Hle. }
  assert (Hlo : 1 <= SM).
  { pose proof (first_column_positive seq p CM ltac:(lia) Hne Hs Hc) as H1.
    pose proof (sumf_ge_first (colmax CM) C ltac:(lia)
      ltac:(intros c Hlt; apply (colmax_le_colsum CM C c Hs Hlt (Hnn c)))) as H2.
    unfold SM. lia. }
  assert (Hq : (0 < inject_Z (len seq))%Q) by (rewrite <- (Zlt_Qlt 0); exact Hn).
  exists (inject_Z SM / inject_Z (len seq))%Q.
  split; [exact Ev|]. split; [|split].
  - apply Qlt_shift_div_l; [exact Hq|]. rewrite Qmult_0_l.
    rewrite <- (Zlt_Qlt 0). lia.
  - apply Qle_shift_div_r; [exact Hq|]. rewrite Qmult_1_l.
    rewrite <- Zle_Qle. exact Hup.
  - rewrite (ratio_one SM (len seq) Hn).
    rewrite (monochromatic_columns seq p CM ltac:(lia) Hs Hc). fold C.
    split.
    + intros Heq. apply sumf_le_eq; [exact Hle|].
      fold SM. rewrite Heq, <- Ht. apply (total_colsums CM C Hs).
    + intros Hall. unfold SM. rewrite <- Ht, (total_colsums CM C Hs).
      apply sumf_ext. exact Hall.
Qed.

Lemma getPerfectLevelSeq_range_witness :
  exists PR,
    getPerfectLevelSeq "ATCGATCGAT" 4 = Ok (Fin PR) /\
    (0 < PR)%Q /\ (PR <= 1)%Q /\
    ((PR == 1)%Q <-> monochromatic "ATCGATCGAT" 4).
Proof.
  apply (getPerfectLevelSeq_range "ATCGATCGAT" 4); [discriminate | lia].
Defined.

(** ** Loops that collect results *)

Lemma mapM_pure {A B : Type} (f : A -> result B) (g : A -> B) (xs : list A) :
  Forall (fun x => f x = Ok (g x)) xs -> mapM f xs = Ok (map g xs).
Proof.
  induction 1 as [|x xs Hx _ IH]; simpl; [reflexivity|].
  rewrite Hx. simpl. rewrite IH. reflexivity.
Qed.

Lemma mapM_Forall2 {A B : Type} (f : A -> result B) (xs : list A) (ys : list B) :
  mapM f xs = Ok ys <-> Forall2 (fun x y => f x = Ok y) xs ys.
Proof.
  revert ys. induction xs as [|x xs IH]; intros ys; simpl.
  - split.
    + intros [= <-]. constructor.
    + intros H. inversion H. reflexivity.
  - split.
    + intros H. apply bind_inv in H as (y & Ey & H).
      apply bind_inv in H as (ys' & Eys & [= <-]).
      constructor; [exact Ey | apply IH, Eys].
    + intros H. inversion H as [|x' y xs' ys' Ey Hrest]; subst.
      rewrite Ey. simpl. apply IH in Hrest. rewrite Hrest. reflexivity.
Qed.

Lemma mapM_total {A B : Type} (f : A -> result B) (xs : list A) :
  Forall (fun x => exists y, f x = Ok y) xs -> exists ys, mapM f xs = Ok ys.
Proof.
  induction 1 as [|x xs [y Hy] _ [ys IH]]; simpl.
  - exists []. reflexivity.
  - exists (y :: ys). rewrite Hy. simpl. rewrite IH. reflexivity.
Qed.

Lemma mapM_length {A B : Type} (f : A -> result B) (xs : list A) (ys : list B) :
  mapM f xs = Ok ys -> length ys = length xs.
Proof. intros H. apply mapM_Forall2 in H. symmetry. eapply Forall2_length, H. Qed.

Lemma mapM_lookup {A B : Type} (f : A -> result B) (xs : list A) (ys : list B)
      (k : nat) (x : A) :
  mapM f xs = Ok ys -> xs !! k = Some x ->
  exists y, ys !! k = Some y /\ f x = Ok y.
Proof.
  intros H Hx. apply mapM_Forall2 in H.
  destruct (Forall2_lookup_l _ _ _ _ _ H Hx) as (y & Hy & Hf). eauto.
Qed.

Lemma pyitem_nat {A : Type} (l : list A) (i : nat) (x : A) :
  l !! i = Some x -> pyitem l (Z.of_nat i) = Ok x.
Proof.
  intros H. pose proof (lookup_lt_Some _ _ _ H) as Hlt. unfold pyitem.
  destruct (Z.ltb_spec (Z.of_nat i) 0) as [?|_]; [lia|].
  destruct (Z.ltb_spec (Z.of_nat i) 0) as [?|_]; [lia|].
  destruct (Z.leb_spec (Z.of_nat (length l)) (Z.of_nat i)) as [?|_]; [lia|].
  simpl. rewrite Nat2Z.id, H. reflexivity.
Qed.

(** ** The consensus repeat *)

Lemma argmax_four (a b c d : Z) :
  let col := [a; b; c; d] in
  let r := argmax_list col in
  (r < 4)%nat /\
  (forall r', (r' < 4)%nat -> nth r' col 0 <= nth r col 0) /\
  (forall r', (r' < r)%nat -> nth r' col 0 < nth r col 0).
Proof.
  simpl.
  destruct (Z.ltb_spec a b); destruct (Z.ltb_spec b c); destruct (Z.ltb_spec a c);
    destruct (Z.ltb_spec c d); destruct (Z.ltb_spec b d); destruct (Z.ltb_spec a d);
    simpl; try lia;
    (split; [lia|]; split; intros [|[|[|[|r']]]] Hr; simpl; lia).
Qed.

Lemma nth_cells (CM : matrix) (c r : nat) :
  (r < 4)%nat ->
  nth r [cell CM 0 c; cell CM 1 c; cell CM 2 c; cell CM 3 c] 0 = cell CM r c.
Proof. intros Hr. destruct r as [|[|[|[|r]]]]; try lia; reflexivity. Qed.

Lemma chars_string_of_list (l : list ascii) : chars (string_of_list_ascii l) = l.
Proof. apply list_ascii_of_string_of_list_ascii. Qed.

(** What [getRepeatSeq] returns for a period [p >= 1]. *)
Lemma getRepeatSeq_value (seq : string) (p : Z) (CM : matrix) :
  1 <= p -> getCongruenceMatrix seq p = Ok CM -> shape CM 4 (Z.to_nat p) ->
  getRepeatSeq seq p
  = Ok (string_of_list_ascii
          (map (fun c => symbol (argmax_list (column CM c))) (nrange p))).
Proof.
  intros Hp E Hs. unfold getRepeatSeq. rewrite E. cbn [bind].
  rewrite (mapM_pure _ (fun c => symbol (argmax_list (column CM c)))).
  - reflexivity.
  - apply Forall_forall. intros i Hi. unfold nrange in Hi.
    apply elem_of_seq in Hi.
    rewrite (pyitem_nat _ i (argmax_list (column CM i))); [reflexivity|].
    unfold argmax0. rewrite (ncols_shape CM _ Hs), list_lookup_fmap.
    rewrite lookup_seq_lt by lia. reflexivity.
Qed.

(** C9: for a period [p >= 1] the consensus has exactly [p] symbols, and
    its [c]-th symbol names the first row that holds the maximum of column
    [c] of the congruence matrix (rows in the order G, C, A, other); on
    "ATCGATCGATCGATCGATCG" with period 4 it is "ATCG" and the perfect level
    is 1. *)
Theorem getRepeatSeq_consensus (seq : string) (p : Z) :
  1 <= p ->
  (exists CM s,
     getCongruenceMatrix seq p = Ok CM /\
     getRepeatSeq seq p = Ok s /\
     len s = p /\
     forall c : nat, Z.of_nat c < p ->
       exists r : nat,
         (r < 4)%nat /\
         chars s !! c = Some (symbol r) /\
         (forall r', (r' < 4)%nat -> cell CM r' c <= cell CM r c) /\
         (forall r', (r' < r)%nat -> cell CM r' c < cell CM r c)) /\
  getRepeatSeq "ATCGATCGATCGATCGATCG" 4 = Ok "ATCG"%string /\
  (exists PR, getPerfectLevelSeq "ATCGATCGATCGATCGATCG" 4 = Ok (Fin PR) /\ (PR == 1)%Q).
Proof.
  intros Hp. split; [|split].
  - destruct (getCongruenceMatrix_occ seq p ltac:(lia)) as (CM & E & Hs & _).
    exists CM. eexists. split; [exact E|].
    split; [apply (getRepeatSeq_value seq p CM Hp E Hs)|].
    unfold len, nrange. rewrite chars_string_of_list, length_map, length_seq.
    split; [lia|].
    intros c Hc.
    assert (Hlt : (c < Z.to_nat p)%nat) by lia.
    pose proof (column_cells CM _ c Hs Hlt) as Hcol.
    destruct (argmax_four (cell CM 0 c) (cell CM 1 c) (cell CM 2 c) (cell CM 3 c))
      as (Hr & Hmax & Hfirst).
    rewrite <- Hcol in Hr, Hmax, Hfirst.
    set (r := argmax_list (column CM c)) in *.
    exists r. split; [exact Hr|]. split; [|split].
    + rewrite list_lookup_fmap, lookup_seq_lt by lia. reflexivity.
    + intros r' Hr'. specialize (Hmax r' Hr').
      rewrite Hcol, !nth_cells in Hmax by lia. exact Hmax.
    + intros r' Hr'. specialize (Hfirst r' Hr').
      rewrite Hcol, !nth_cells in Hfirst by lia. exact Hfirst.
  - vm_compute. reflexivity.
  - eexists. split; [vm_compute; reflexivity|]. reflexivity.
Qed.

Lemma getRepeatSeq_consensus_witness :
  (exists CM s,
     getCongruenceMatrix "ATTGAACCCG" 5 = Ok CM /\
     getRepeatSeq "ATTGAACCCG" 5 = Ok s /\
     len s = 5 /\
     forall c : nat, Z.of_nat c < 5 ->
       exists r : nat,
         (r < 4)%nat /\
         chars s !! c = Some (symbol r) /\
         (forall r', (r' < 4)%nat -> cell CM r' c <= cell CM r c) /\
         (forall r', (r' < r)%nat -> cell CM r' c < cell CM r c)) /\
  getRepeatSeq "ATCGATCGATCGATCGATCG" 4 = Ok "ATCG"%string /\
  (exists PR, getPerfectLevelSeq "ATCGATCGATCGATCGATCG" 4 = Ok (Fin PR) /\ (PR == 1)%Q).
Proof. apply (getRepeatSeq_consensus "ATTGAACCCG" 5). lia. Defined.

(** ** Scans *)

Lemma getNDUSeq_returns (seq : string) (p : Z) :
  1 <= p -> exists v, getNDUSeq seq p = Ok v.
Proof.
  intros Hp. destruct (getNDUSeq_value seq p Hp) as (CM & DU & _ & E & _).
  eauto.
Qed.

Lemma getPerfectLevelSeq_returns (seq : string) (p : Z) :
  1 <= p -> exists v, getPerfectLevelSeq seq p = Ok v.
Proof.
  intros Hp. destruct (getPerfectLevelSeq_value seq p Hp) as (CM & _ & _ & _ & _ & E).
  eauto.
Qed.

Lemma pyrange_length (a b : Z) : Z.of_nat (length (pyrange a b)) = Z.max 0 (b - a).
Proof. unfold pyrange. rewrite length_seqZ. lia. Qed.

Lemma pyrange_lookup (a b : Z) (k : nat) :
  a + Z.of_nat k < b -> pyrange a b !! k = Some (a + Z.of_nat k).
Proof. intros H. unfold pyrange. apply lookup_seqZ_lt. lia. Qed.

Lemma pyrange_elem (a b x : Z) : x ∈ pyrange a b <-> a <= x < b.
Proof. unfold pyrange. rewrite elem_of_seqZ. lia. Qed.

(** A scan of scores that never raises yields one score per period. *)
Lemma scan_range (f : Z -> result pyfloat) (a b : Z) :
  (forall x, a <= x < b -> exists v, f x = Ok v) ->
  exists l, mapM f (pyrange a b) = Ok l /\
    Z.of_nat (length l) = Z.max 0 (b - a) /\
    forall k : nat, a + Z.of_nat k < b ->
      exists v, l !! k = Some v /\ f (a + Z.of_nat k) = Ok v.
Proof.
  intros Hf.
  destruct (mapM_total f (pyrange a b)) as [l E].
  { apply Forall_forall. intros x Hx. apply Hf, pyrange_elem, Hx. }
  exists l. split; [exact E|]. split.
  - rewrite (mapM_length _ _ _ E). apply pyrange_length.
  - intros k Hk. apply (mapM_lookup f _ _ k _ E). apply pyrange_lookup, Hk.
Qed.

(** C10: for a period [p >= 1] the sliding-window scan never raises,
    whatever the window size [W] (given, or [5 p] by default): it returns
    exactly [max 0 (n - W + 1)] scores, the [k]-th being the NDU of the
    window [seq[k : k + W]], and so the empty list when [W > n]. *)
Theorem getNDUWindowSeq_length (seq : string) (p : Z) (W : option Z) :
  1 <= p ->
  let window := match W with None => 5 * p | Some w => w end in
  exists l,
    getNDUWindowSeq seq p W = Ok l /\
    Z.of_nat (length l) = Z.max 0 (len seq - window + 1) /\
    (forall k : nat, Z.of_nat k < len seq - window + 1 ->
       exists v, l !! k = Some v /\
         getNDUSeq (str_slice seq (Z.of_nat k) (Z.of_nat k + window)) p = Ok v) /\
    (len seq < window -> l = []).
Proof.
  intros Hp window. unfold getNDUWindowSeq. fold window.
  destruct (scan_range
              (fun i => getNDUSeq (str_slice seq i (i + window)) p)
              0 (len seq - window + 1)) as (l & E & Hl & Hk).
  { intros x _. apply getNDUSeq_returns, Hp. }
  exists l. split; [exact E|]. split; [|split].
  - rewrite Hl. f_equal. lia.
  - intros k Hlt. destruct (Hk k ltac:(lia)) as (v & Ev & Ef).
    exists v. split; [exact Ev|]. exact Ef.
  - intros Hgt. destruct l as [|v l]; [reflexivity|]. simpl in Hl. lia.
Qed.

Lemma getNDUWindowSeq_length_witness :
  let window := match Some 7 with None => 5 * 2 | Some w => w end in
  exists l,
    getNDUWindowSeq "ATCGAT" 2 (Some 7) = Ok l /\
    Z.of_nat (length l) = Z.max 0 (len "ATCGAT" - window + 1) /\
    (forall k : nat, Z.of_nat k < len "ATCGAT" - window + 1 ->
       exists v, l !! k = Some v /\
         getNDUSeq (str_slice "ATCGAT" (Z.of_nat k) (Z.of_nat k + window)) 2 = Ok v) /\
    (len "ATCGAT" < window -> l = []).
Proof. apply (getNDUWindowSeq_length "ATCGAT" 2 (Some 7)). lia. Defined.

Lemma getNDURangeSeq_scan (seq : string) (p1 p2 : Z) :
  1 <= p1 ->
  exists l, getNDURangeSeq seq p1 p2 = Ok l /\
    Z.of_nat (length l) = Z.max 0 (p2 - p1 + 1) /\
    forall k : nat, p1 + Z.of_nat k <= p2 ->
      exists v, l !! k = Some v /\ getNDUSeq seq (p1 + Z.of_nat k) = Ok v.
Proof.
  intros Hp. unfold getNDURangeSeq.
  destruct (scan_range (getNDUSeq seq) p1 (p2 + 1)) as (l & E & Hl & Hk).
  { intros x Hx. apply getNDUSeq_returns. lia. }
  exists l. split; [exact E|]. split.
  - rewrite Hl. f_equal. lia.
  - intros k Hle. apply Hk. lia.
Qed.

Lemma getPRRangeSeq_scan (seq : string) (p1 p2 : Z) :
  1 <= p1 ->
  exists l, getPRRangeSeq seq p1 p2 = Ok l /\
    Z.of_nat (length l) = Z.max 0 (p2 - p1) /\
    forall k : nat, p1 + Z.of_nat k < p2 ->
      exists v, l !! k = Some v /\ getPerfectLevelSeq seq (p1 + Z.of_nat k) = Ok v.
Proof.
  intros Hp. unfold getPRRangeSeq.
  destruct (scan_range (getPerfectLevelSeq seq) p1 p2) as (l & E & Hl & Hk).
  { intros x Hx. apply getPerfectLevelSeq_returns. lia. }
  exists l. split; [exact E|]. split; [exact Hl | exact Hk].
Qed.

(** C5: for periods [1 <= p1 <= p2], [getNDURangeSeq] returns the
    [p2 - p1 + 1] NDUs of the periods [p1 .. p2], the [k]-th being that of
    [p1 + k]; [getPRRangeSeq] loops over [range(p1, p2)] and returns only
    [p2 - p1] perfect levels, those of [p1 .. p2 - 1]: the score of period
    [p2] is missing. *)
Theorem range_scans (seq : string) (p1 p2 : Z) :
  1 <= p1 -> p1 <= p2 ->
  (exists l, getNDURangeSeq seq p1 p2 = Ok l /\
     Z.of_nat (length l) = p2 - p1 + 1 /\
     forall k : nat, p1 + Z.of_nat k <= p2 ->
       exists v, l !! k = Some v /\ getNDUSeq seq (p1 + Z.of_nat k) = Ok v) /\
  (exists l, getPRRangeSeq seq p1 p2 = Ok l /\
     Z.of_nat (length l) = p2 - p1 /\
     (forall k : nat, p1 + Z.of_nat k < p2 ->
        exists v, l !! k = Some v /\ getPerfectLevelSeq seq (p1 + Z.of_nat k) = Ok v) /\
     l !! Z.to_nat (p2 - p1) = None).
Proof.
  intros H1 H2. split.
  - destruct (getNDURangeSeq_scan seq p1 p2 H1) as (l & E & Hl & Hk).
    exists l. split; [exact E|]. split; [lia | exact Hk].
  - destruct (getPRRangeSeq_scan seq p1 p2 H1) as (l & E & Hl & Hk).
    exists l. split; [exact E|]. split; [lia|]. split; [exact Hk|].
    apply lookup_ge_None. lia.
Qed.

Lemma range_scans_witness :
  (exists l, getNDURangeSeq "ATCGATCG" 2 4 = Ok l /\
     Z.of_nat (length l) = 4 - 2 + 1 /\
     forall k : nat, 2 + Z.of_nat k <= 4 ->
       exists v, l !! k = Some v /\ getNDUSeq "ATCGATCG" (2 + Z.of_nat k) = Ok v) /\
  (exists l, getPRRangeSeq "ATCGATCG" 2 4 = Ok l /\
     Z.of_nat (length l) = 4 - 2 /\
     (forall k : nat, 2 + Z.of_nat k < 4 ->
        exists v, l !! k = Some v /\ getPerfectLevelSeq "ATCGATCG" (2 + Z.of_nat k) = Ok v) /\
     l !! Z.to_nat (4 - 2) = None).
Proof. apply (range_scans "ATCGATCG" 2 4); lia. Defined.

Example getPRRangeSeq_ex :
  getPRRangeSeq "ATCGATCG" 2 4 = Ok [Fin (4 # 8); Fin (3 # 8)].
Proof. vm_compute. reflexivity. Qed.

(** ** Failures of the scoring functions *)

Lemma getCongruenceMatrix_negative (seq : string) (p : Z) :
  p < 0 -> getCongruenceMatrix seq p = Raise ValueError.
Proof.
  intros Hp. unfold getCongruenceMatrix.
  destruct (Z.ltb_spec p 0); [reflexivity | lia].
Qed.

Lemma getCongruenceMatrix_zero (seq : string) :
  seq <> ""%string -> getCongruenceMatrix seq 0 = Raise ZeroDivisionError.
Proof. destruct seq as [|a s]; [congruence|]. intros _. reflexivity. Qed.

Lemma scores_raise (seq : string) (p : Z) :
  p < 1 -> raises (getNDUSeq seq p) /\ raises (getPerfectLevelSeq seq p).
Proof.
  intros Hp. destruct (Z.ltb_spec p 0) as [Hneg|Hge].
  - unfold getNDUSeq, getPerfectLevelSeq.
    rewrite (getCongruenceMatrix_negative seq p Hneg).
    split; exists ValueError; reflexivity.
  - assert (p = 0) as -> by lia.
    destruct seq as [|a s].
    + split; exists ZeroDivisionError; reflexivity.
    + unfold getNDUSeq, getPerfectLevelSeq.
      rewrite (getCongruenceMatrix_zero (String a s)) by discriminate.
      split; exists ZeroDivisionError; reflexivity.
Qed.

Lemma scores_raise_negative (seq : string) (p : Z) :
  p < 0 ->
  getNDUSeq seq p = Raise ValueError /\ getPerfectLevelSeq seq p = Raise ValueError.
Proof.
  intros Hneg. unfold getNDUSeq, getPerfectLevelSeq.
  rewrite (getCongruenceMatrix_negative seq p Hneg). split; reflexivity.
Qed.

Lemma scores_raise_zero (seq : string) :
  getNDUSeq seq 0 = Raise ZeroDivisionError /\
  getPerfectLevelSeq seq 0 = Raise ZeroDivisionError.
Proof.
  destruct seq as [|a s].
  - split; reflexivity.
  - unfold getNDUSeq, getPerfectLevelSeq.
    rewrite (getCongruenceMatrix_zero (String a s)) by discriminate.
    split; reflexivity.
Qed.

Lemma sumf_all_zero (f : nat -> Z) (n : nat) :
  (forall k, (k < n)%nat -> f k = 0) -> sumf f n = 0.
Proof.
  intros H. rewrite (sumf_ext f (fun _ => 0) n H). apply sumf_zero.
Qed.

Lemma scores_of_empty (p : Z) :
  1 <= p ->
  getNDUSeq "" p = Ok NaN /\ getPerfectLevelSeq "" p = Ok NaN.
Proof.
  intros Hp.
  split.
  - destruct (getNDUSeq_value "" p Hp) as (CM & DU & E & Ev & _ & Hq).
    destruct (getCongruenceMatrix_occ "" p ltac:(lia)) as (CM' & E' & Hs & Hc).
    rewrite E in E'. injection E' as <-.
    rewrite Ev. f_equal.
    assert (Hsq : squares CM (Z.to_nat p) = 0).
    { unfold squares. apply sumf_all_zero. intros r _.
      apply sumf_all_zero. intros c _. rewrite Hc. reflexivity. }
    rewrite Hsq in Hq. change (len "") with 0 in *.
    assert (H0 : (DU == 0)%Q).
    { rewrite Hq. change (inject_Z (0 * 0)) with 0%Q. change (inject_Z 0) with 0%Q.
      unfold Qdiv. ring. }
    unfold np_truediv. simpl (0 =? 0).
    apply Qeq_alt in H0. rewrite H0. reflexivity.
  - destruct (getPerfectLevelSeq_value "" p Hp) as (CM & _ & Hs & Hc & _ & Ev).
    rewrite Ev. f_equal.
    assert (Hsum : sumf (colmax CM) (Z.to_nat p) = 0).
    { apply sumf_all_zero. intros c Hlt.
      rewrite (colmax_cells CM _ c Hs Hlt), !Hc. reflexivity. }
    rewrite Hsum. reflexivity.
Qed.

Lemma scores_finite (seq : string) (p : Z) :
  1 <= p -> seq <> ""%string ->
  exists q1 q2, getNDUSeq seq p = Ok (Fin q1) /\ getPerfectLevelSeq seq p = Ok (Fin q2).
Proof.
  intros Hp Hne. pose proof (len_pos seq Hne) as Hn.
  destruct (getNDUSeq_value seq p Hp) as (CM & DU & _ & E1 & _).
  destruct (getPerfectLevelSeq_value seq p Hp) as (CM' & _ & _ & _ & _ & E2).
  rewrite np_truediv_fin in E1, E2 by lia. eauto.
Qed.

(** C8, as the code has it: the scoring functions raise only for a period
    below 1 ([ValueError] for a negative period, [ZeroDivisionError] for
    period 0, on every sequence); for a period [p >= 1], also one greater
    than the length of the sequence, they return a finite score on a
    non-empty sequence, and nan (not an exception) on the empty sequence. *)
Theorem scoring_failures (seq : string) (p : Z) :
  (p < 1 -> raises (getNDUSeq seq p) /\ raises (getPerfectLevelSeq seq p)) /\
  (1 <= p -> seq <> ""%string ->
     exists q1 q2,
       getNDUSeq seq p = Ok (Fin q1) /\ getPerfectLevelSeq seq p = Ok (Fin q2)) /\
  (1 <= p -> seq = ""%string ->
     getNDUSeq seq p = Ok NaN /\ getPerfectLevelSeq seq p = Ok NaN) /\
  (p < 0 ->
     getNDUSeq seq p = Raise ValueError /\
     getPerfectLevelSeq seq p = Raise ValueError) /\
  (p = 0 ->
     getNDUSeq seq p = Raise ZeroDivisionError /\
     getPerfectLevelSeq seq p = Raise ZeroDivisionError).
Proof.
  split; [|split; [|split; [|split]]].
  - apply scores_raise.
  - apply scores_finite.
  - intros Hp ->. apply scores_of_empty, Hp.
  - apply scores_raise_negative.
  - intros ->. apply scores_raise_zero.
Qed.

Lemma scoring_failures_witness :
  (0 < 1 -> raises (getNDUSeq "A" 0) /\ raises (getPerfectLevelSeq "A" 0)) /\
  (exists q1 q2,
     getNDUSeq "A" 2 = Ok (Fin q1) /\ getPerfectLevelSeq "A" 2 = Ok (Fin q2)) /\
  (getNDUSeq "" 1 = Ok NaN /\ getPerfectLevelSeq "" 1 = Ok NaN) /\
  (getNDUSeq "A" (-1) = Raise ValueError /\
   getPerfectLevelSeq "A" (-1) = Raise ValueError) /\
  (getNDUSeq "A" 0 = Raise ZeroDivisionError /\
   getPerfectLevelSeq "A" 0 = Raise ZeroDivisionError).
Proof.
  split; [|split; [|split; [|split]]].
  - apply (scoring_failures "A" 0).
  - apply (scoring_failures "A" 2); [lia | discriminate].
  - apply (scoring_failures "" 1); [lia | reflexivity].
  - apply (scoring_failures "A" (-1)). lia.
  - apply (scoring_failures "A" 0). reflexivity.
Defined.

(** C8 as stated fails: a period greater than the length of the sequence
    is scored, and the empty sequence gets a value. *)
Lemma scoring_accepts_degenerate_input :
  (len "A" < 2 /\ (exists q, getNDUSeq "A" 2 = Ok (Fin q) /\ (q == 7 # 8)%Q) /\
   ~ raises (getNDUSeq "A" 2)) /\
  (len "A" < 2 /\ (exists q, getPerfectLevelSeq "A" 2 = Ok (Fin q) /\ (q == 1)%Q) /\
   ~ raises (getPerfectLevelSeq "A" 2)) /\
  (len "" = 0 /\ getNDUSeq "" 1 = Ok NaN /\ ~ raises (getNDUSeq "" 1)) /\
  (len "" = 0 /\ getPerfectLevelSeq "" 1 = Ok NaN /\ ~ raises (getPerfectLevelSeq "" 1)).
Proof.
  assert (E1 : exists q, getNDUSeq "A" 2 = Ok (Fin q) /\ (q == 7 # 8)%Q).
  { eexists. split; [vm_compute; reflexivity | reflexivity]. }
  assert (E2 : exists q, getPerfectLevelSeq "A" 2 = Ok (Fin q) /\ (q == 1)%Q).
  { eexists. split; [vm_compute; reflexivity | reflexivity]. }
  assert (E3 : getNDUSeq "" 1 = Ok NaN) by reflexivity.
  assert (E4 : getPerfectLevelSeq "" 1 = Ok NaN) by reflexivity.
  split; [|split; [|split]].
  - split; [reflexivity|]. split; [exact E1|].
    destruct E1 as (q & E & _). intros [e He]. congruence.
  - split; [reflexivity|]. split; [exact E2|].
    destruct E2 as (q & E & _). intros [e He]. congruence.
  - split; [reflexivity|]. split; [exact E3|]. intros [e He]. congruence.
  - split; [reflexivity|]. split; [exact E4|]. intros [e He]. congruence.
Qed.

(** ** [max] and [index] on finite scores *)

Lemma pf_gt_fin (x y : Q) : pf_gt (Fin x) (Fin y) = true <-> (y < x)%Q.
Proof.
  simpl. destruct (x ?= y)%Q eqn:E.
  - apply Qeq_alt in E. split; [discriminate|]. intros H. rewrite E in H.
    exfalso. apply (Qlt_irrefl _ H).
  - apply Qlt_alt in E. split; [discriminate|]. intros H.
    exfalso. apply (Qlt_irrefl x). apply (Qlt_trans _ y); assumption.
  - apply Qgt_alt in E. split; [intros _; exact E | reflexivity].
Qed.

Lemma pf_gt_fin_false (x y : Q) : pf_gt (Fin x) (Fin y) = false <-> (x <= y)%Q.
Proof.
  destruct (pf_gt (Fin x) (Fin y)) eqn:E.
  - apply pf_gt_fin in E. split; [discriminate|]. intros H.
    exfalso. apply (Qlt_not_le _ _ E H).
  - split; [|reflexivity]. intros _. apply Qnot_lt_le. intros H.
    apply pf_gt_fin in H. congruence.
Qed.

Lemma pf_eq_fin (x y : Q) : pf_eq (Fin x) (Fin y) = true <-> (x == y)%Q.
Proof. simpl. apply Qeq_bool_iff. Qed.

Lemma fold_max_fin (a : Q) (t : list Q) :
  exists m k,
    fold_left (fun m y => if pf_gt y m then y else m) (map Fin t) (Fin a) = Fin m /\
    first_max (a :: t) k m.
Proof.
  induction t as [|x t IH] using rev_ind.
  - exists a, 0%nat. split; [reflexivity|]. split; [reflexivity|]. split.
    + intros [|j] y Hy; [|discriminate]. injection Hy as <-. apply Qle_refl.
    + intros j y Hj. lia.
  - destruct IH as (m & k & E & Hk & Hmax & Hfirst).
    rewrite map_app, fold_left_app, E. cbn [map fold_left].
    pose proof (lookup_lt_Some _ _ _ Hk) as Hlen.
    destruct (pf_gt (Fin x) (Fin m)) eqn:G.
    + apply pf_gt_fin in G.
      exists x, (length (a :: t)). split; [reflexivity|]. split; [|split].
      * change (a :: t ++ [x]) with ((a :: t) ++ [x]).
        rewrite lookup_app_r, Nat.sub_diag by lia. reflexivity.
      * intros j y Hy. change (a :: t ++ [x]) with ((a :: t) ++ [x]) in Hy.
        apply lookup_app_Some in Hy as [Hy|[_ Hy]].
        -- apply Qlt_le_weak. apply (Qle_lt_trans _ m); [apply (Hmax j y Hy) | exact G].
        -- destruct (j - length (a :: t))%nat; [|discriminate].
           injection Hy as <-. apply Qle_refl.
      * intros j y Hj Hy. change (a :: t ++ [x]) with ((a :: t) ++ [x]) in Hy.
        rewrite lookup_app_l in Hy by exact Hj.
        apply (Qle_lt_trans _ m); [apply (Hmax j y Hy) | exact G].
    + apply pf_gt_fin_false in G.
      exists m, k. split; [reflexivity|]. split; [|split].
      * change (a :: t ++ [x]) with ((a :: t) ++ [x]).
        rewrite lookup_app_l by exact Hlen. exact Hk.
      * intros j y Hy. change (a :: t ++ [x]) with ((a :: t) ++ [x]) in Hy.
        apply lookup_app_Some in Hy as [Hy|[_ Hy]]; [apply (Hmax j y Hy)|].
        destruct (j - length (a :: t))%nat; [|discriminate].
        injection Hy as <-. exact G.
      * intros j y Hj Hy. change (a :: t ++ [x]) with ((a :: t) ++ [x]) in Hy.
        rewrite lookup_app_l in Hy by lia. apply (Hfirst j y Hj Hy).
Qed.

Lemma pyindex_first (v : pyfloat) (l : list pyfloat) (k : nat) (x : pyfloat) :
  l !! k = Some x -> pf_eq x v = true ->
  (forall j y, (j < k)%nat -> l !! j = Some y -> pf_eq y v = false) ->
  pyindex v l = Ok (Z.of_nat k).
Proof.
  revert k. induction l as [|z l IH]; intros k Hk Hx Hbefore; [discriminate|].
  destruct k as [|k]; simpl.
  - injection Hk as ->. rewrite Hx. reflexivity.
  - rewrite (Hbefore 0%nat z ltac:(lia) eq_refl).
    rewrite (IH k Hk Hx).
    + simpl. f_equal. lia.
    + intros j y Hj Hy. apply (Hbefore (S j) y); [lia | exact Hy].
Qed.

(** [max] of a non-empty list of finite scores and the [index] of it:
    the first position of the largest score. *)
Lemma max_index_fin (qs : list Q) :
  qs <> [] ->
  exists (i : nat) (m : Q),
    pymax (map Fin qs) = Ok (Fin m) /\
    pyindex (Fin m) (map Fin qs) = Ok (Z.of_nat i) /\
    first_max qs i m.
Proof.
  destruct qs as [|a t]; [congruence|]. intros _.
  destruct (fold_max_fin a t) as (m & k & E & Hf).
  exists k, m. split; [simpl; rewrite E; reflexivity|]. split; [|exact Hf].
  destruct Hf as (Hk & Hmax & Hfirst).
  apply (pyindex_first _ _ k (Fin m)).
  - rewrite list_lookup_fmap, Hk. reflexivity.
  - apply pf_eq_fin. reflexivity.
  - intros j y Hj Hy. rewrite list_lookup_fmap in Hy.
    destruct ((a :: t) !! j) as [q|] eqn:Eq; [|discriminate].
    injection Hy as <-. specialize (Hfirst j q Hj Eq).
    destruct (pf_eq (Fin q) (Fin m)) eqn:P; [|reflexivity].
    apply pf_eq_fin in P. rewrite P in Hfirst.
    exfalso. apply (Qlt_irrefl _ Hfirst).
Qed.

(** A scan of finite scores. *)
Lemma mapM_fin {A : Type} (f : A -> result pyfloat) (xs : list A) :
  Forall (fun x => exists q, f x = Ok (Fin q)) xs ->
  exists qs, mapM f xs = Ok (map Fin qs) /\ length qs = length xs /\
    forall k x, xs !! k = Some x -> exists q, qs !! k = Some q /\ f x = Ok (Fin q).
Proof.
  induction 1 as [|x xs [q Hq] _ (qs & E & Hl & Hk)]; simpl.
  - exists []. split; [reflexivity|]. split; [reflexivity|]. intros k x Hx. discriminate.
  - exists (q :: qs). rewrite Hq. simpl. rewrite E. simpl.
    split; [reflexivity|]. split; [simpl; lia|].
    intros [|k] y Hy; simpl in Hy.
    + injection Hy as <-. exists q. split; [reflexivity | exact Hq].
    + apply (Hk k y Hy).
Qed.

Lemma scan_range_fin (f : Z -> result pyfloat) (a b : Z) :
  (forall x, a <= x < b -> exists q, f x = Ok (Fin q)) ->
  exists qs, mapM f (pyrange a b) = Ok (map Fin qs) /\
    Z.of_nat (length qs) = Z.max 0 (b - a) /\
    forall k : nat, a + Z.of_nat k < b ->
      exists q, qs !! k = Some q /\ f (a + Z.of_nat k) = Ok (Fin q).
Proof.
  intros Hf.
  destruct (mapM_fin f (pyrange a b)) as (qs & E & Hl & Hk).
  { apply Forall_forall. intros x Hx. apply Hf, pyrange_elem, Hx. }
  exists qs. split; [exact E|]. split.
  - rewrite Hl. apply pyrange_length.
  - intros k Hlt. apply (Hk k). apply pyrange_lookup, Hlt.
Qed.

(** ** The default period limit *)

Lemma default_limit_min (n : Z) : default_limit n = Z.min (n / 2) 100.
Proof. unfold default_limit. destruct (Z.ltb_spec 100 (n / 2)); lia. Qed.

Lemma ndu_scores_fin (seq : string) (mp : Z) :
  seq <> ""%string \/ mp <= 2 ->
  exists qs, mapM (getNDUSeq seq) (pyrange 2 mp) = Ok (map Fin qs) /\
    Z.of_nat (length qs) = Z.max 0 (mp - 2) /\
    forall k : nat, 2 + Z.of_nat k < mp ->
      exists q, qs !! k = Some q /\ getNDUSeq seq (2 + Z.of_nat k) = Ok (Fin q).
Proof.
  intros H. apply scan_range_fin. intros x Hx.
  destruct H as [Hne|Hmp]; [|lia].
  destruct (scores_finite seq x ltac:(lia) Hne) as (q1 & _ & E & _). eauto.
Qed.

Lemma default_limit_empty (seq : string) :
  seq <> ""%string \/ default_limit (len seq) <= 2.
Proof.
  destruct seq as [|a s]; [right; vm_compute; discriminate | left; discriminate].
Qed.

(** C7, as the code has it: without a period limit, with
    [mp = min (n / 2) 100], [getNDUAllSeq] scans the periods [2 .. mp - 1]
    (the limit itself is not scanned) after a placeholder 0 for periodicity
    1: the result holds [1 + max 0 (mp - 2)] scores, [result[0] = 0] and
    [result[k]] is the NDU of periodicity [k + 1] for [1 <= k < mp - 1];
    [getMaxNDUSeq] returns the maximum of that list and one more than its
    first index. *)
Theorem default_limit_scan (seq : string) :
  let mp := Z.min (len seq / 2) 100 in
  exists l,
    getNDUAllSeq seq None = Ok l /\
    Z.of_nat (length l) = 1 + Z.max 0 (mp - 2) /\
    l !! 0%nat = Some (Fin 0) /\
    (forall k : nat, (1 <= k)%nat -> Z.of_nat k + 1 < mp ->
       exists v, l !! k = Some v /\ getNDUSeq seq (Z.of_nat k + 1) = Ok v) /\
    (forall k : nat, mp <= Z.of_nat k + 1 -> (1 <= k)%nat -> l !! k = None) /\
    exists per s,
      getMaxNDUSeq seq None = Ok (per, s) /\
      pymax l = Ok s /\ pyindex s l = Ok (per - 1).
Proof.
  intros mp. unfold getNDUAllSeq, getMaxNDUSeq. cbn [period_limit].
  rewrite default_limit_min. fold mp.
  destruct (ndu_scores_fin seq mp) as (qs & E & Hl & Hk).
  { pose proof (default_limit_empty seq) as H.
    rewrite default_limit_min in H. exact H. }
  rewrite E. cbn [bind].
  exists (Fin 0 :: map Fin qs). split; [reflexivity|]. split; [|split; [|split; [|split]]].
  - cbn [length]. rewrite length_map. lia.
  - reflexivity.
  - intros [|k] H1 H2; [lia|].
    change ((Fin 0 :: map Fin qs) !! S k) with (map Fin qs !! k).
    destruct (Hk k ltac:(lia)) as (q & Eq & Ef).
    exists (Fin q). rewrite list_lookup_fmap, Eq.
    split; [reflexivity|].
    replace (Z.of_nat (S k) + 1) with (2 + Z.of_nat k) by lia. exact Ef.
  - intros k H1 H2. apply lookup_ge_None. cbn [length]. rewrite length_map. lia.
  - destruct (max_index_fin (0%Q :: qs) ltac:(discriminate)) as (i & m & Em & Ei & _).
    change (Fin 0 :: map Fin qs) with (map Fin (0%Q :: qs)).
    rewrite Em. cbn [bind]. rewrite Ei. cbn [bind].
    exists (Z.of_nat i + 1), (Fin m). split; [reflexivity|]. split; [reflexivity|].
    rewrite Ei. f_equal. lia.
Qed.

(** C7 fails in the code: the header of [getNDUAllSeq] gives its output
    as "the NDUs for the periodicities 2-mp", and the loop [range(2, mp)]
    stops one period before [mp = min (n / 2) 100]. On a sequence of
    length 6 the limit is 3 and period 3 has an NDU, but the result has two
    entries only, none for periodicity 3; on "ATCGATCG" the limit is 4,
    period 4 has the largest NDU (3/2), and [getMaxNDUSeq] returns
    period 2 with the smaller NDU 1. The range scan [getNDURangeSeq], whose
    header has the same wording ("periodicities p1-p2"), does score the
    upper period: from 2 to 4 it returns three NDUs, the last one that of
    period 4, which [getNDUAllSeq] leaves out. *)
Lemma default_scan_stops_before_limit :
  (Z.min (len "ATCGAT" / 2) 100 = 3 /\
   (exists q, getNDUSeq "ATCGAT" 3 = Ok (Fin q)) /\
   exists l, getNDUAllSeq "ATCGAT" None = Ok l /\ length l = 2%nat /\ l !! 2%nat = None) /\
  (Z.min (len "ATCGATCG" / 2) 100 = 4 /\
   exists per s q4,
     getMaxNDUSeq "ATCGATCG" None = Ok (per, Fin s) /\
     getNDUSeq "ATCGATCG" 4 = Ok (Fin q4) /\
     per < 4 /\ (s < q4)%Q) /\
  (exists per s q4,
     getMaxNDUSeq "ATCGATCG" None = Ok (per, Fin s) /\
     getNDUSeq "ATCGATCG" 4 = Ok (Fin q4) /\
     per = 2 /\ (s == 1)%Q /\ (q4 == 3 # 2)%Q) /\
  (exists l r v4,
     getNDUAllSeq "ATCGATCG" None = Ok l /\ length l = 3%nat /\
     getNDURangeSeq "ATCGATCG" 2 4 = Ok r /\ length r = 3%nat /\
     getNDUSeq "ATCGATCG" 4 = Ok v4 /\
     r !! 2%nat = Some v4 /\ l !! 3%nat = None /\ v4 ∉ l).
Proof.
  split; [|split; [|split]].
  - split; [reflexivity|]. split.
    + eexists. vm_compute. reflexivity.
    + eexists. split; [vm_compute; reflexivity|]. split; reflexivity.
  - split; [reflexivity|].
    eexists. eexists. eexists.
    split; [vm_compute; reflexivity|].
    split; [vm_compute; reflexivity|].
    split; [lia | vm_compute; reflexivity].
  - eexists. eexists. eexists.
    split; [vm_compute; reflexivity|].
    split; [vm_compute; reflexivity|].
    split; [reflexivity|]. split; vm_compute; reflexivity.
  - eexists. eexists. eexists.
    split; [vm_compute; reflexivity|]. split; [reflexivity|].
    split; [vm_compute; reflexivity|]. split; [reflexivity|].
    split; [vm_compute; reflexivity|]. split; [reflexivity|].
    split; [reflexivity|].
    intros Hin. repeat (apply elem_of_cons in Hin as [Hin|Hin]; [discriminate Hin|]).
    inversion Hin.
Qed.

(** ** Best-period searches *)

Lemma pr_scores_fin (seq : string) (p1 p2 : Z) :
  seq <> ""%string -> 1 <= p1 ->
  exists qs, mapM (getPerfectLevelSeq seq) (pyrange p1 p2) = Ok (map Fin qs) /\
    Z.of_nat (length qs) = Z.max 0 (p2 - p1) /\
    forall k : nat, p1 + Z.of_nat k < p2 ->
      exists q, qs !! k = Some q /\ getPerfectLevelSeq seq (p1 + Z.of_nat k) = Ok (Fin q).
Proof.
  intros Hne Hp. apply scan_range_fin. intros x Hx.
  destruct (scores_finite seq x ltac:(lia) Hne) as (_ & q2 & _ & E). eauto.
Qed.

Lemma first_max_lt_length (qs : list Q) (i : nat) (m : Q) :
  first_max qs i m -> (i < length qs)%nat.
Proof. intros [H _]. apply (lookup_lt_Some _ _ _ H). Qed.

(** C1, as the code has it, on a non-empty sequence.  [getMaxPerfect]
    over [1 <= p1 < p2] returns the first (lowest) period of [p1 .. p2 - 1]
    whose perfect level is the largest of the scanned list, with that
    level.  [getMaxNDUSeq] returns the first position, counted from 1, of
    the largest entry of the list [0, NDU 2, ..., NDU (mp - 1)] that
    [getNDUAllSeq] returns, with that entry: periodicity 1 and score 0 when
    no scanned NDU is positive, and otherwise the lowest scanned period of
    [2 .. mp - 1] whose NDU is the largest. *)
Theorem best_period_searches (seq : string) (p1 p2 : Z) (mp : option Z) :
  seq <> ""%string -> 1 <= p1 -> p1 < p2 ->
  (exists qs i m,
     getPRRangeSeq seq p1 p2 = Ok (map Fin qs) /\
     getMaxPerfect seq p1 p2 = Ok (p1 + Z.of_nat i, Fin m) /\
     first_max qs i m /\
     p1 <= p1 + Z.of_nat i < p2 /\
     getPerfectLevelSeq seq (p1 + Z.of_nat i) = Ok (Fin m)) /\
  (exists qs i m,
     getNDUAllSeq seq mp = Ok (map Fin (0%Q :: qs)) /\
     getMaxNDUSeq seq mp = Ok (Z.of_nat i + 1, Fin m) /\
     first_max (0%Q :: qs) i m /\
     (i = 0%nat -> m = 0%Q /\ forall j y, qs !! j = Some y -> (y <= 0)%Q) /\
     (i <> 0%nat ->
        2 <= Z.of_nat i + 1 < period_limit (len seq) mp /\
        getNDUSeq seq (Z.of_nat i + 1) = Ok (Fin m))).
Proof.
  intros Hne H1 H2. split.
  - destruct (pr_scores_fin seq p1 p2 Hne H1) as (qs & E & Hl & Hk).
    assert (Hnil : qs <> []) by (intros ->; simpl in Hl; lia).
    destruct (max_index_fin qs Hnil) as (i & m & Em & Ei & Hf).
    exists qs, i, m. split; [exact E|].
    pose proof (first_max_lt_length qs i m Hf) as Hi.
    split; [|split; [exact Hf|split; [lia|]]].
    + unfold getMaxPerfect. rewrite E. cbn [bind].
      rewrite Em. cbn [bind]. rewrite Ei. cbn [bind].
      f_equal. f_equal. lia.
    + destruct (Hk i ltac:(lia)) as (q & Eq & Ef).
      destruct Hf as (Hm & _). rewrite Hm in Eq. injection Eq as <-. exact Ef.
  - destruct (ndu_scores_fin seq (period_limit (len seq) mp) (or_introl Hne))
      as (qs & E & Hl & Hk).
    destruct (max_index_fin (0%Q :: qs) ltac:(discriminate)) as (i & m & Em & Ei & Hf).
    exists qs, i, m.
    split; [unfold getNDUAllSeq; rewrite E; reflexivity|].
    split; [|split; [exact Hf|split]].
    + unfold getMaxNDUSeq. rewrite E. cbn [bind].
      change (Fin 0 :: map Fin qs) with (map Fin (0%Q :: qs)).
      rewrite Em. cbn [bind]. rewrite Ei. reflexivity.
    + intros ->. destruct Hf as (Hm & Hmax & _).
      injection Hm as <-. split; [reflexivity|].
      intros j y Hy. apply (Hmax (S j) y Hy).
    + intros Hi. destruct i as [|i]; [congruence|].
      pose proof (first_max_lt_length _ _ _ Hf) as Hlt. cbn [length] in Hlt.
      destruct Hf as (Hm & _).
      change ((0%Q :: qs) !! S i) with (qs !! i) in Hm.
      destruct (Hk i ltac:(lia)) as (q & Eq & Ef).
      rewrite Hm in Eq. injection Eq as <-.
      split; [lia|].
      replace (Z.of_nat (S i) + 1) with (2 + Z.of_nat i) by lia. exact Ef.
Qed.

Lemma best_period_searches_witness :
  (exists qs i m,
     getPRRangeSeq "ATCGATCG" 2 6 = Ok (map Fin qs) /\
     getMaxPerfect "ATCGATCG" 2 6 = Ok (2 + Z.of_nat i, Fin m) /\
     first_max qs i m /\
     2 <= 2 + Z.of_nat i < 6 /\
     getPerfectLevelSeq "ATCGATCG" (2 + Z.of_nat i) = Ok (Fin m)) /\
  (exists qs i m,
     getNDUAllSeq "ATCGATCG" (Some 6) = Ok (map Fin (0%Q :: qs)) /\
     getMaxNDUSeq "ATCGATCG" (Some 6) = Ok (Z.of_nat i + 1, Fin m) /\
     first_max (0%Q :: qs) i m /\
     (i = 0%nat -> m = 0%Q /\ forall j y, qs !! j = Some y -> (y <= 0)%Q) /\
     (i <> 0%nat ->
        2 <= Z.of_nat i + 1 < period_limit (len "ATCGATCG") (Some 6) /\
        getNDUSeq "ATCGATCG" (Z.of_nat i + 1) = Ok (Fin m))).
Proof.
  apply (best_period_searches "ATCGATCG" 2 6 (Some 6)); [discriminate | lia | lia].
Defined.

(** C1 as stated fails for [getMaxNDUSeq]: on "GGCCAATT" with limit 3 the
    scanned range is period 2 alone, its NDU is 0, and the placeholder of
    periodicity 1 is returned, outside the scanned range. *)
Lemma getMaxNDUSeq_outside_scanned_range :
  pyrange 2 3 = [2] /\
  (exists q, getNDUSeq "GGCCAATT" 2 = Ok (Fin q) /\ (q == 0)%Q) /\
  getMaxNDUSeq "GGCCAATT" (Some 3) = Ok (1, Fin 0) /\
  1 ∉ pyrange 2 3.
Proof.
  split; [reflexivity|]. split; [|split].
  - eexists. split; [vm_compute; reflexivity | reflexivity].
  - vm_compute. reflexivity.
  - intros H. apply pyrange_elem in H. lia.
Qed.

(** The loop of [getMaxPRSeq] scores the limit [mp] at every turn: on
    "ATCGATCGATCGATCGATCG" it returns period 2 with the perfect level of
    period 10, though period 4 is scanned and has perfect level 1. *)
Example getMaxPRSeq_scores_the_limit :
  exists s q10,
    getMaxPRSeq "ATCGATCGATCGATCGATCG" = Ok (2, Fin s) /\
    getPerfectLevelSeq "ATCGATCGATCGATCGATCG" 10 = Ok (Fin q10) /\
    (s == q10)%Q /\ (s < 1)%Q.
Proof.
  eexists. eexists.
  split; [vm_compute; reflexivity|].
  split; [vm_compute; reflexivity|].
  split; [reflexivity | vm_compute; reflexivity].
Qed.

(** ** Top-n searches *)

(** C6 fails on the code for [n <> 3]: [getLargests] always slices the
    three largest scores, [pt[l-3:l]], and then reads its first [n]
    entries.  On "ATCGATCGATCGATCGATCG" over the periods 2 .. 6, period 4
    has the largest NDU and the largest perfect level; with [n = 3] both
    searches end on period 4, with [n = 1] they return the period of the
    third largest score, and with [n = 4] they raise [IndexError]. *)
Theorem top_searches_ignore_n :
  let s := "ATCGATCGATCGATCGATCG"%string in
  getTopMaxPeriods s 2 6 3 = Ok ([6; 2; 4], 4) /\
  getTopMaxPeriods s 2 6 1 = Ok ([6], 6) /\
  getTopMaxPeriods s 2 6 4 = Raise IndexError /\
  (exists q4 q6,
     getNDUSeq s 4 = Ok (Fin q4) /\ getNDUSeq s 6 = Ok (Fin q6) /\ (q6 < q4)%Q) /\
  getTopMaxPerfects s 2 6 3 = Ok ([3; 2; 4], 4) /\
  getTopMaxPerfects s 2 6 1 = Ok ([3], 3) /\
  getTopMaxPerfects s 2 6 4 = Raise IndexError /\
  (exists q4 q3,
     getPerfectLevelSeq s 4 = Ok (Fin q4) /\ getPerfectLevelSeq s 3 = Ok (Fin q3) /\
     (q3 < q4)%Q).
Proof.
  cbv zeta.
  split; [vm_compute; reflexivity|].
  split; [vm_compute; reflexivity|].
  split; [vm_compute; reflexivity|].
  split.
  { eexists. eexists. split; [vm_compute; reflexivity|].
    split; [vm_compute; reflexivity | vm_compute; reflexivity]. }
  split; [vm_compute; reflexivity|].
  split; [vm_compute; reflexivity|].
  split; [vm_compute; reflexivity|].
  eexists. eexists. split; [vm_compute; reflexivity|].
  split; [vm_compute; reflexivity | vm_compute; reflexivity].
Qed.

(** * Further properties of the module *)

(** ** Symbols outside G, C, A *)

Lemma bucket_canonical (ch : ascii) : bucket (canonical ch) = bucket ch.
Proof.
  unfold canonical, bucket.
  destruct (Ascii.eqb ch "G"); [reflexivity|].
  destruct (Ascii.eqb ch "C"); [reflexivity|].
  destruct (Ascii.eqb ch "A"); reflexivity.
Qed.

Lemma cm_loop_canonical (p : Z) (s : list ascii) (i : Z) (CM : matrix) :
  cm_loop p (map canonical s) i CM = cm_loop p s i CM.
Proof.
  revert i CM. induction s as [|ch s IH]; intros i CM; [reflexivity|].
  cbn [map cm_loop]. rewrite bucket_canonical.
  destruct (pymod i p) as [m|e]; [|reflexivity]. cbn [bind].
  destruct (incritem CM (bucket ch) (Z.to_nat m)) as [CM'|e]; [|reflexivity].
  cbn [bind]. apply IH.
Qed.

Lemma chars_canonical_seq (s : string) : chars (canonical_seq s) = map canonical (chars s).
Proof. unfold canonical_seq. apply chars_string_of_list. Qed.

Lemma len_canonical_seq (s : string) : len (canonical_seq s) = len s.
Proof. unfold len. rewrite chars_canonical_seq, length_map. reflexivity. Qed.

Lemma getCongruenceMatrix_canonical (s : string) (p : Z) :
  getCongruenceMatrix (canonical_seq s) p = getCongruenceMatrix s p.
Proof.
  unfold getCongruenceMatrix. rewrite chars_canonical_seq, cm_loop_canonical.
  reflexivity.
Qed.

(** The module reads a sequence through its four buckets only: replacing
    every symbol other than G, C, A (lower case letters, N, gaps, ...) by T
    changes neither the congruence matrix nor any score nor the consensus. *)
Theorem scores_ignore_other_symbols (s : string) (p : Z) :
  getCongruenceMatrix (canonical_seq s) p = getCongruenceMatrix s p /\
  getNDUSeq (canonical_seq s) p = getNDUSeq s p /\
  getNDUSeqEquation (canonical_seq s) p = getNDUSeqEquation s p /\
  getPerfectLevelSeq (canonical_seq s) p = getPerfectLevelSeq s p /\
  getRepeatSeq (canonical_seq s) p = getRepeatSeq s p.
Proof.
  split; [apply getCongruenceMatrix_canonical|].
  unfold getNDUSeq, getNDUSeqEquation, getPerfectLevelSeq, getRepeatSeq.
  rewrite !getCongruenceMatrix_canonical, !len_canonical_seq. auto.
Qed.

(** ** Slices *)

Lemma pyslice_length {A : Type} (l : list A) (a b : Z) :
  0 <= a -> a <= b -> b <= Z.of_nat (length l) ->
  Z.of_nat (length (pyslice l a b)) = b - a.
Proof.
  intros Ha Hab Hb. unfold pyslice, clip.
  destruct (Z.ltb_spec a 0); [lia|]. destruct (Z.ltb_spec b 0); [lia|].
  rewrite length_take, length_drop. lia.
Qed.

Lemma pyslice_all {A : Type} (l : list A) : pyslice l 0 (Z.of_nat (length l)) = l.
Proof.
  unfold pyslice, clip.
  destruct (Z.ltb_spec 0 0); [lia|].
  destruct (Z.ltb_spec (Z.of_nat (length l)) 0); [lia|].
  set (n := Z.of_nat (length l)).
  replace (Z.to_nat (Z.max 0 (Z.min n 0))) with 0%nat by lia.
  replace (Z.to_nat (Z.max 0 (Z.min n n) - Z.max 0 (Z.min n 0))) with (length l) by lia.
  rewrite drop_0. apply take_ge. lia.
Qed.

Lemma str_slice_len (s : string) (a b : Z) :
  0 <= a -> a <= b -> b <= len s -> len (str_slice s a b) = b - a.
Proof.
  intros Ha Hab Hb. unfold len, str_slice. rewrite chars_string_of_list.
  apply pyslice_length; assumption.
Qed.

Lemma str_slice_all (s : string) : str_slice s 0 (len s) = s.
Proof.
  unfold str_slice, len. rewrite pyslice_all. apply string_of_list_ascii_of_string.
Qed.

Lemma len_pos_inv (s : string) : 0 < len s -> s <> ""%string.
Proof. intros H ->. vm_compute in H. discriminate. Qed.

(** ** The prefix walk *)

(** For a period [p >= 1] the prefix walk scores the prefixes of lengths
    1 to [n - 1], in this order: it returns [max 0 (n - 1)] finite NDUs and
    leaves the whole sequence out. *)
Theorem getNDUWalkSeq_prefixes (seq : string) (p : Z) :
  1 <= p ->
  exists qs,
    getNDUWalkSeq seq p = Ok (map Fin qs) /\
    Z.of_nat (length qs) = Z.max 0 (len seq - 1) /\
    forall k : nat, Z.of_nat k + 1 < len seq ->
      exists q, qs !! k = Some q /\
        len (str_slice seq 0 (Z.of_nat k + 1)) = Z.of_nat k + 1 /\
        getNDUSeq (str_slice seq 0 (Z.of_nat k + 1)) p = Ok (Fin q).
Proof.
  intros Hp. unfold getNDUWalkSeq.
  destruct (scan_range_fin (fun i => getNDUSeq (str_slice seq 0 i) p) 1 (len seq))
    as (qs & E & Hl & Hk).
  { intros x Hx.
    assert (Hlen : len (str_slice seq 0 x) = x - 0) by (apply str_slice_len; lia).
    destruct (scores_finite (str_slice seq 0 x) p Hp) as (q & _ & Eq & _).
    - apply len_pos_inv. lia.
    - eauto. }
  exists qs. split; [exact E|]. split; [exact Hl|].
  intros k Hlt. destruct (Hk k ltac:(lia)) as (q & Eq & Ef).
  exists q. split; [exact Eq|].
  replace (Z.of_nat k + 1) with (1 + Z.of_nat k) by lia.
  split; [|exact Ef].
  rewrite str_slice_len; lia.
Qed.

Lemma getNDUWalkSeq_prefixes_witness :
  exists qs,
    getNDUWalkSeq "ATCGATCGAT" 2 = Ok (map Fin qs) /\
    Z.of_nat (length qs) = Z.max 0 (len "ATCGATCGAT" - 1) /\
    forall k : nat, Z.of_nat k + 1 < len "ATCGATCGAT" ->
      exists q, qs !! k = Some q /\
        len (str_slice "ATCGATCGAT" 0 (Z.of_nat k + 1)) = Z.of_nat k + 1 /\
        getNDUSeq (str_slice "ATCGATCGAT" 0 (Z.of_nat k + 1)) 2 = Ok (Fin q).
Proof. apply (getNDUWalkSeq_prefixes "ATCGATCGAT" 2). lia. Defined.

(** A sequence of at most one symbol is never scored by the walk, so even
    an invalid period gives the empty list instead of an exception. *)
Theorem getNDUWalkSeq_short (seq : string) (p : Z) :
  len seq <= 1 -> getNDUWalkSeq seq p = Ok [].
Proof.
  intros H. unfold getNDUWalkSeq, pyrange.
  replace (seqZ 1 (len seq - 1)) with (@nil Z); [reflexivity|].
  unfold seqZ. replace (Z.to_nat (len seq - 1)) with 0%nat by lia. reflexivity.
Qed.

Lemma getNDUWalkSeq_short_witness : getNDUWalkSeq "A" 0 = Ok [].
Proof. apply (getNDUWalkSeq_short "A" 0). vm_compute. discriminate. Defined.

(** ** Sliding windows *)

Lemma getNDUWindowSeq_scan (seq : string) (p W : Z) :
  1 <= p ->
  exists l,
    getNDUWindowSeq seq p (Some W) = Ok l /\
    Z.of_nat (length l) = Z.max 0 (len seq - W + 1) /\
    forall k : nat, Z.of_nat k < len seq - W + 1 ->
      exists v, l !! k = Some v /\
        getNDUSeq (str_slice seq (Z.of_nat k) (Z.of_nat k + W)) p = Ok v.
Proof.
  intros Hp. unfold getNDUWindowSeq.
  destruct (scan_range (fun i => getNDUSeq (str_slice seq i (i + W)) p)
              0 (len seq - W + 1)) as (l & E & Hl & Hk).
  { intros x _. apply getNDUSeq_returns, Hp. }
  exists l. split; [exact E|]. split.
  - rewrite Hl. f_equal. lia.
  - intros k Hlt. destruct (Hk k ltac:(lia)) as (v & Ev & Ef). eauto.
Qed.

(** With a window of [1 <= W <= n] symbols and a period [p >= 1], every
    window holds exactly [W] symbols and every one of the [n - W + 1]
    scores is finite. *)
Theorem getNDUWindowSeq_full_windows (seq : string) (p W : Z) :
  1 <= p -> 1 <= W -> W <= len seq ->
  exists qs,
    getNDUWindowSeq seq p (Some W) = Ok (map Fin qs) /\
    Z.of_nat (length qs) = len seq - W + 1 /\
    forall k : nat, Z.of_nat k + W <= len seq ->
      exists q, qs !! k = Some q /\
        len (str_slice seq (Z.of_nat k) (Z.of_nat k + W)) = W /\
        getNDUSeq (str_slice seq (Z.of_nat k) (Z.of_nat k + W)) p = Ok (Fin q).
Proof.
  intros Hp HW Hn. unfold getNDUWindowSeq.
  assert (Hlen : forall x, 0 <= x -> x + W <= len seq ->
            len (str_slice seq x (x + W)) = W).
  { intros x H0 H1. rewrite str_slice_len; lia. }
  destruct (scan_range_fin (fun i => getNDUSeq (str_slice seq i (i + W)) p)
              0 (len seq - W + 1)) as (qs & E & Hl & Hk).
  { intros x Hx.
    destruct (scores_finite (str_slice seq x (x + W)) p Hp) as (q & _ & Eq & _).
    - apply len_pos_inv. rewrite Hlen; lia.
    - eauto. }
  exists qs. split; [exact E|]. split; [lia|].
  intros k Hle. destruct (Hk k ltac:(lia)) as (q & Eq & Ef).
  exists q. split; [exact Eq|]. split; [apply Hlen; lia | exact Ef].
Qed.

Lemma getNDUWindowSeq_full_windows_witness :
  exists qs,
    getNDUWindowSeq "ATCGATCGAT" 2 (Some 4) = Ok (map Fin qs) /\
    Z.of_nat (length qs) = len "ATCGATCGAT" - 4 + 1 /\
    forall k : nat, Z.of_nat k + 4 <= len "ATCGATCGAT" ->
      exists q, qs !! k = Some q /\
        len (str_slice "ATCGATCGAT" (Z.of_nat k) (Z.of_nat k + 4)) = 4 /\
        getNDUSeq (str_slice "ATCGATCGAT" (Z.of_nat k) (Z.of_nat k + 4)) 2 = Ok (Fin q).
Proof.
  apply (getNDUWindowSeq_full_windows "ATCGATCGAT" 2 4); [lia | lia | vm_compute; discriminate].
Defined.

(** A window as long as the sequence gives one score, the NDU of the
    whole sequence. *)
Theorem getNDUWindowSeq_whole (seq : string) (p : Z) :
  getNDUWindowSeq seq p (Some (len seq)) =
  (let* v := getNDUSeq seq p in Ok [v]).
Proof.
  unfold getNDUWindowSeq.
  replace (len seq - len seq + 1) with 1 by lia.
  change (pyrange 0 1) with [0]. cbn [mapM].
  rewrite Z.add_0_l, str_slice_all.
  destruct (getNDUSeq seq p); reflexivity.
Qed.

Lemma str_slice_empty (s : string) (i : Z) : str_slice s i i = ""%string.
Proof.
  unfold str_slice, pyslice. rewrite Z.sub_diag. reflexivity.
Qed.

(** A window size of 0 is not refused: for a period [p >= 1] the scan
    returns [n + 1] entries, all nan. *)
Theorem getNDUWindowSeq_zero_window (seq : string) (p : Z) :
  1 <= p ->
  exists l,
    getNDUWindowSeq seq p (Some 0) = Ok l /\
    Z.of_nat (length l) = len seq + 1 /\
    Forall (fun v => v = NaN) l.
Proof.
  intros Hp. unfold getNDUWindowSeq.
  rewrite (mapM_pure _ (fun _ => NaN)).
  - eexists. split; [reflexivity|]. split.
    + rewrite length_map, pyrange_length. pose proof (len_nonneg seq). lia.
    + apply Forall_forall. intros v Hv. apply list_elem_of_fmap in Hv as (x & -> & _).
      reflexivity.
  - apply Forall_forall. intros i _. rewrite Z.add_0_r, str_slice_empty.
    apply scores_of_empty, Hp.
Qed.

Lemma getNDUWindowSeq_zero_window_witness :
  exists l,
    getNDUWindowSeq "ATCG" 2 (Some 0) = Ok l /\
    Z.of_nat (length l) = len "ATCG" + 1 /\
    Forall (fun v => v = NaN) l.
Proof. apply (getNDUWindowSeq_zero_window "ATCG" 2). lia. Defined.

(** ** The two-dimensional window walk *)

Lemma setrow_ok (M : list (list pyfloat)) (i : nat) (row : list pyfloat) (L : nat) :
  (i < length M)%nat -> length row = L -> setrow M i row L = Ok (<[i := row]> M).
Proof.
  intros Hi Hl. unfold setrow.
  destruct (lookup_lt_is_Some_2 M i Hi) as [r ->].
  rewrite (proj2 (Nat.eqb_eq _ _) Hl). reflexivity.
Qed.

Lemma fill_rows (g : Z -> result (list pyfloat)) (L : nat) (k : nat) :
  (forall i, 1 <= i -> exists row, g i = Ok row /\ length row = L) ->
  forall (a : Z) (M : list (list pyfloat)),
    1 <= a -> a + Z.of_nat k <= Z.of_nat (length M) ->
    exists M',
      foldM (fun M i => let* ndu := g i in setrow M (Z.to_nat i) ndu L)
            (seqZ a (Z.of_nat k)) M = Ok M' /\
      length M' = length M /\
      (forall j : nat, Z.of_nat j < a \/ a + Z.of_nat k <= Z.of_nat j -> M' !! j = M !! j) /\
      (forall i, a <= i < a + Z.of_nat k ->
         exists row, M' !! Z.to_nat i = Some row /\ g i = Ok row).
Proof.
  intros Hg. induction k as [|k IH]; intros a M Ha Hlen.
  - exists M. split; [reflexivity|]. split; [reflexivity|]. split; [reflexivity|].
    intros i Hi. lia.
  - rewrite seqZ_cons by lia. cbn [foldM].
    destruct (Hg a Ha) as (row & Er & Hr). rewrite Er. cbn [bind].
    rewrite (setrow_ok M (Z.to_nat a) row L) by (auto; lia). cbn [bind].
    replace (Z.pred (Z.of_nat (S k))) with (Z.of_nat k) by lia.
    replace (Z.succ a) with (a + 1) by lia.
    destruct (IH (a + 1) (<[Z.to_nat a := row]> M) ltac:(lia)) as (M' & E & Hl & Hout & Hin).
    { rewrite length_insert. lia. }
    exists M'. split; [exact E|]. split; [rewrite Hl; apply length_insert|]. split.
    + intros j Hj. rewrite Hout by lia. apply list_lookup_insert_ne. lia.
    + intros i Hi. destruct (Z.eq_dec i a) as [->|Hne].
      * exists row. split; [|exact Er].
        rewrite Hout by lia. apply list_lookup_insert_eq. lia.
      * apply Hin. lia.
Qed.

(** For a window size [W <= n + 1] and a period limit [mp >= 0] (given,
    or [min (n / 2) 100]) the grid has [mp] rows of [n - W + 1] columns;
    row 0 is all zeros and row [i], for [1 <= i < mp], is the sliding-window
    walk of period [i]. *)
Theorem getNDU2DWinSeq_rows (seq : string) (W : Z) (mp : option Z) :
  W <= len seq + 1 -> 0 <= period_limit (len seq) mp ->
  let L := Z.to_nat (len seq - W + 1) in
  exists M,
    getNDU2DWinSeq seq W mp = Ok M /\
    Z.of_nat (length M) = period_limit (len seq) mp /\
    Forall (fun row => length row = L) M /\
    (0 < period_limit (len seq) mp -> M !! 0%nat = Some (replicate L (Fin 0))) /\
    (forall i, 1 <= i < period_limit (len seq) mp ->
       exists row, M !! Z.to_nat i = Some row /\
                   getNDUWindowSeq seq i (Some W) = Ok row).
Proof.
  intros HW Hmp L. unfold getNDU2DWinSeq, np_zeros2.
  set (m := period_limit (len seq) mp) in *.
  destruct (Z.ltb_spec m 0); [lia|].
  destruct (Z.ltb_spec (len seq - W + 1) 0); [lia|].
  cbn [orb bind]. fold L.
  set (M0 := replicate (Z.to_nat m) (replicate L (Fin 0))).
  assert (Hg : forall i, 1 <= i -> exists row,
             getNDUWindowSeq seq i (Some W) = Ok row /\ length row = L).
  { intros i Hi. destruct (getNDUWindowSeq_scan seq i W Hi) as (l & E & Hl & _).
    exists l. split; [exact E|]. unfold L. lia. }
  unfold pyrange.
  destruct (Z.eq_dec m 0) as [Hz|Hnz].
  - exists M0. rewrite Hz. split; [reflexivity|].
    unfold M0. rewrite Hz. split; [reflexivity|]. split; [constructor|].
    split; intros; lia.
  - destruct (fill_rows (fun i => getNDUWindowSeq seq i (Some W)) L (Z.to_nat (m - 1)) Hg
                1 M0 ltac:(lia)) as (M & E & Hl & Hout & Hin).
    { unfold M0. rewrite length_replicate. lia. }
    replace (Z.of_nat (Z.to_nat (m - 1))) with (m - 1) in E, Hout, Hin by lia.
    exists M. split; [exact E|].
    assert (HlM : length M = Z.to_nat m) by (rewrite Hl; apply length_replicate).
    split; [lia|]. split; [|split].
    + apply Forall_lookup. intros j row Hj.
      destruct (Z.ltb_spec (Z.of_nat j) 1) as [Hlt|Hge].
      * rewrite Hout in Hj by lia. unfold M0 in Hj.
        apply lookup_replicate in Hj as [-> _]. apply length_replicate.
      * pose proof (lookup_lt_Some _ _ _ Hj) as Hjl.
        destruct (Hin (Z.of_nat j) ltac:(lia)) as (row' & Hr & Er).
        rewrite Nat2Z.id, Hj in Hr. injection Hr as <-.
        destruct (Hg (Z.of_nat j) ltac:(lia)) as (row'' & Er' & Hlr).
        rewrite Er in Er'. injection Er' as <-. exact Hlr.
    + intros _. rewrite Hout by lia. unfold M0. apply lookup_replicate_2. lia.
    + intros i Hi. apply Hin. lia.
Qed.

Lemma getNDU2DWinSeq_rows_witness :
  let L := Z.to_nat (len "ATCGATCGAT" - 6 + 1) in
  exists M,
    getNDU2DWinSeq "ATCGATCGAT" 6 None = Ok M /\
    Z.of_nat (length M) = period_limit (len "ATCGATCGAT") None /\
    Forall (fun row => length row = L) M /\
    (0 < period_limit (len "ATCGATCGAT") None -> M !! 0%nat = Some (replicate L (Fin 0))) /\
    (forall i, 1 <= i < period_limit (len "ATCGATCGAT") None ->
       exists row, M !! Z.to_nat i = Some row /\
                   getNDUWindowSeq "ATCGATCGAT" i (Some 6) = Ok row).
Proof.
  apply (getNDU2DWinSeq_rows "ATCGATCGAT" 6 None); vm_compute; discriminate.
Defined.

(** A window more than one symbol longer than the sequence makes the
    grid's allocation fail, where [getNDUWindowSeq] alone returns the empty
    list. *)
Theorem getNDU2DWinSeq_long_window (seq : string) (W : Z) (mp : option Z) :
  len seq + 1 < W ->
  getNDU2DWinSeq seq W mp = Raise ValueError /\
  (forall p, 1 <= p -> getNDUWindowSeq seq p (Some W) = Ok []).
Proof.
  intros HW. split.
  - unfold getNDU2DWinSeq, np_zeros2.
    destruct (Z.ltb_spec (len seq - W + 1) 0); [|lia].
    rewrite orb_true_r. reflexivity.
  - intros p Hp. destruct (getNDUWindowSeq_scan seq p W Hp) as (l & E & Hl & _).
    rewrite E. f_equal. destruct l; [reflexivity|]. simpl in Hl. lia.
Qed.

Lemma getNDU2DWinSeq_long_window_witness :
  getNDU2DWinSeq "ATCG" 6 None = Raise ValueError /\
  (forall p, 1 <= p -> getNDUWindowSeq "ATCG" p (Some 6) = Ok []).
Proof. apply (getNDU2DWinSeq_long_window "ATCG" 6 None). vm_compute. reflexivity. Defined.

(** ** Bounds on the scores *)

Lemma sumfQ_nonneg (f : nat -> Q) (n : nat) :
  (forall k, (k < n)%nat -> (0 <= f k)%Q) -> (0 <= sumfQ f n)%Q.
Proof.
  induction n as [|n IH]; intros H; cbn [sumfQ]; [apply Qle_refl|].
  specialize (IH ltac:(intros; apply H; lia)). specialize (H n ltac:(lia)). lra.
Qed.

Lemma sumfQ_zero (f : nat -> Q) (n : nat) :
  (forall k, (k < n)%nat -> (0 <= f k)%Q) ->
  (sumfQ f n == 0)%Q <-> forall k, (k < n)%nat -> (f k == 0)%Q.
Proof.
  induction n as [|n IH]; intros H; cbn [sumfQ].
  - split; [intros _ k Hk; lia | reflexivity].
  - pose proof (sumfQ_nonneg f n ltac:(intros; apply H; lia)) as Hs.
    pose proof (H n ltac:(lia)) as Hn.
    specialize (IH ltac:(intros; apply H; lia)).
    split.
    + intros E k Hk. destruct (decide (k = n)) as [->|Hne]; [lra|].
      apply IH; [lra | lia].
    + intros Hall. pose proof (Hall n ltac:(lia)) as E.
      assert (E' : (sumfQ f n == 0)%Q) by (apply IH; intros; apply Hall; lia).
      lra.
Qed.

Lemma sumfQ_ext (f g : nat -> Q) (n : nat) :
  (forall k, (k < n)%nat -> (f k == g k)%Q) -> (sumfQ f n == sumfQ g n)%Q.
Proof.
  induction n as [|n IH]; intros H; cbn [sumfQ]; [reflexivity|].
  rewrite IH, (H n) by (intros; try apply H; lia). reflexivity.
Qed.

Lemma Qsquare_nonneg (x : Q) : (0 <= x * x)%Q.
Proof. destruct x as [a b]. unfold Qle. simpl. nia. Qed.

Lemma dev2_nonneg (CM : matrix) (avg : Q) (r c : nat) : (0 <= dev2 CM avg r c)%Q.
Proof. unfold dev2. apply Qsquare_nonneg. Qed.

Lemma dev2_zero (CM : matrix) (avg : Q) (r c : nat) :
  (dev2 CM avg r c == 0)%Q <-> (inject_Z (cell CM r c) == avg)%Q.
Proof.
  unfold dev2. split.
  - intros H. apply Qmult_integral in H. destruct H; lra.
  - intros H. rewrite H. ring.
Qed.

Lemma sq_dev_row_deviation (f : matrix) (avg : Q) (C : nat) (i : nat) (DU : Q) :
  shape f 4 C -> (i < 4)%nat -> forall k, (k <= C)%nat ->
  exists q,
    foldM (fun DU j => let* x := getitem f i j in
                       let diff := (inject_Z x - avg)%Q in
                       Ok (DU + diff * diff)%Q) (seq 0 k) DU = Ok q /\
    (q == DU + sumfQ (dev2 f avg i) k)%Q.
Proof.
  intros Hs Hi. induction k as [|k IH]; intros Hk.
  - exists DU. split; [reflexivity|]. simpl. ring.
  - destruct (IH ltac:(lia)) as (q & E & Hq).
    rewrite foldM_seq_S, E. simpl bind.
    rewrite (getitem_cell f 4 C i k Hs Hi) by lia. simpl bind.
    eexists. split; [reflexivity|].
    rewrite Hq. cbn [sumfQ]. unfold dev2. ring.
Qed.

Lemma sq_dev_deviation (f : matrix) (avg : Q) (p : Z) :
  shape f 4 (Z.to_nat p) ->
  exists q, sq_dev f avg p = Ok q /\ (q == deviation f avg (Z.to_nat p))%Q.
Proof.
  intros Hs. set (C := Z.to_nat p) in *.
  assert (Hrow : forall i DU, (i < 4)%nat -> exists q,
            sq_dev_row f avg p i DU = Ok q /\ (q == DU + sumfQ (dev2 f avg i) C)%Q).
  { intros i DU Hi. unfold sq_dev_row, nrange. fold C.
    apply (sq_dev_row_deviation f avg C i DU Hs Hi C). lia. }
  unfold sq_dev, nrange.
  change (Z.to_nat 4) with 4%nat. simpl seq. cbn [foldM].
  destruct (Hrow 0%nat 0%Q ltac:(lia)) as (q0 & E0 & H0). rewrite E0. cbn [bind].
  destruct (Hrow 1%nat q0 ltac:(lia)) as (q1 & E1 & H1). rewrite E1. cbn [bind].
  destruct (Hrow 2%nat q1 ltac:(lia)) as (q2 & E2 & H2). rewrite E2. cbn [bind].
  destruct (Hrow 3%nat q2 ltac:(lia)) as (q3 & E3 & H3). rewrite E3. cbn [bind].
  exists q3. split; [reflexivity|].
  rewrite H3, H2, H1, H0. unfold deviation. cbn [sumfQ]. ring.
Qed.

Lemma deviation_nonneg (f : matrix) (avg : Q) (C : nat) : (0 <= deviation f avg C)%Q.
Proof.
  unfold deviation. apply sumfQ_nonneg. intros r _.
  apply sumfQ_nonneg. intros c _. apply dev2_nonneg.
Qed.

Lemma deviation_zero (f : matrix) (avg : Q) (C : nat) :
  (deviation f avg C == 0)%Q <->
  forall r c, (r < 4)%nat -> (c < C)%nat -> (inject_Z (cell f r c) == avg)%Q.
Proof.
  unfold deviation.
  rewrite sumfQ_zero
    by (intros r _; apply sumfQ_nonneg; intros c _; apply dev2_nonneg).
  split.
  - intros H r c Hr Hc. apply dev2_zero.
    apply (proj1 (sumfQ_zero (dev2 f avg r) C ltac:(intros; apply dev2_nonneg)) (H r Hr) c Hc).
  - intros H r Hr. apply sumfQ_zero; [intros; apply dev2_nonneg|].
    intros c Hc. apply dev2_zero, H; assumption.
Qed.

Lemma sumf_sq_le (f : nat -> Z) (n : nat) :
  (forall k, (k < n)%nat -> 0 <= f k) ->
  0 <= sumf f n /\ sumf (fun k => f k * f k) n <= sumf f n * sumf f n.
Proof.
  induction n as [|n IH]; intros H; cbn [sumf]; [lia|].
  specialize (IH ltac:(intros; apply H; lia)). specialize (H n ltac:(lia)). nia.
Qed.

Lemma total_rows (CM : matrix) (C : nat) :
  shape CM 4 C -> total CM = sumf (fun r => sumf (cell CM r) C) 4.
Proof.
  intros Hs. rewrite (total_colsums CM C Hs), sumf_swap. apply sumf_ext.
  intros c Hc. rewrite (colsum_cells CM C c Hs Hc). simpl. lia.
Qed.

Lemma squares_le_total (CM : matrix) (C : nat) :
  shape CM 4 C -> (forall r c, 0 <= cell CM r c) ->
  squares CM C <= total CM * total CM.
Proof.
  intros Hs Hn. rewrite (total_rows CM C Hs). unfold squares.
  pose proof (sumf_sq_le (fun r => sumf (cell CM r) C) 4
                ltac:(intros r _; apply (sumf_sq_le (cell CM r) C); intros; apply Hn))
    as [_ H2].
  etransitivity; [|exact H2].
  apply sumf_le. intros r _.
  apply (sumf_sq_le (cell CM r) C). intros; apply Hn.
Qed.

Lemma getNDUSeq_numerator (seq : string) (p : Z) :
  1 <= p ->
  exists CM DU,
    getCongruenceMatrix seq p = Ok CM /\ shape CM 4 (Z.to_nat p) /\
    (forall r c, cell CM r c = occ p r c (chars seq) 0) /\
    total CM = len seq /\
    getNDUSeq seq p = Ok (np_truediv DU (len seq)) /\
    (DU == deviation CM (inject_Z (len seq) / inject_Z (4 * p)) (Z.to_nat p))%Q /\
    (DU == inject_Z (squares CM (Z.to_nat p))
           - inject_Z (len seq * len seq) / inject_Z (4 * p))%Q.
Proof.
  intros Hp.
  destruct (getCongruenceMatrix_total seq p ltac:(lia)) as (CM & E & Hs & Hc & Ht).
  set (avg := (inject_Z (len seq) / inject_Z (4 * p))%Q).
  destruct (sq_dev_deviation CM avg p Hs) as (DU & Ed & Hdev).
  destruct (sq_dev_closed CM avg p Hs) as (DU' & Ed' & Hcl).
  rewrite Ed in Ed'. injection Ed' as <-.
  exists CM, DU. split; [exact E|]. split; [exact Hs|]. split; [exact Hc|].
  split; [exact Ht|]. split; [|split; [exact Hdev|]].
  - unfold getNDUSeq. rewrite E. cbn [bind].
    rewrite py_truediv_ok by lia. cbn [bind]. fold avg. rewrite Ed. reflexivity.
  - rewrite Hcl, Ht. replace (Z.of_nat (Z.to_nat p)) with p by lia.
    unfold avg. rewrite !inject_Z_mult.
    pose proof (inject_Z_nonzero p ltac:(lia)) as Hnz.
    simpl (inject_Z 4). field. exact Hnz.
Qed.

(** On a non-empty sequence and for a period [p >= 1] the NDU lies between
    0 and [n - n / (4 p)], and it is 0 exactly when every cell of the
    congruence matrix holds the same count [n / (4 p)]. *)
Theorem getNDUSeq_bounds (seq : string) (p : Z) :
  seq <> ""%string -> 1 <= p ->
  exists CM NDU,
    getCongruenceMatrix seq p = Ok CM /\
    getNDUSeq seq p = Ok (Fin NDU) /\
    (0 <= NDU)%Q /\
    (NDU <= inject_Z (len seq) - inject_Z (len seq) / inject_Z (4 * p))%Q /\
    ((NDU == 0)%Q <->
     forall r c, (r < 4)%nat -> Z.of_nat c < p -> 4 * p * cell CM r c = len seq).
Proof.
  intros Hne Hp. pose proof (len_pos seq Hne) as Hn.
  destruct (getNDUSeq_numerator seq p Hp) as (CM & DU & E & Hs & Hc & Ht & Ev & Hdev & Hcl).
  rewrite np_truediv_fin in Ev by lia.
  set (n := len seq) in *. set (C := Z.to_nat p) in *.
  set (avg := (inject_Z n / inject_Z (4 * p))%Q) in *.
  assert (HN : (0 < inject_Z n)%Q) by (rewrite <- (Zlt_Qlt 0); exact Hn).
  pose proof (inject_Z_nonzero n ltac:(lia)) as HNz.
  pose proof (inject_Z_nonzero (4 * p) ltac:(lia)) as HPz.
  assert (Hnn : forall r c, 0 <= cell CM r c) by (intros; rewrite Hc; apply occ_nonneg).
  exists CM, (DU / inject_Z n)%Q.
  split; [exact E|]. split; [exact Ev|]. split; [|split].
  - apply Qle_shift_div_l; [exact HN|]. rewrite Qmult_0_l, Hdev.
    apply deviation_nonneg.
  - apply Qle_shift_div_r; [exact HN|]. rewrite Hcl.
    pose proof (squares_le_total CM C Hs Hnn) as Hsq. rewrite Ht in Hsq.
    rewrite Zle_Qle in Hsq.
    assert (Hrhs : ((inject_Z n - avg) * inject_Z n
                    == inject_Z (n * n) - inject_Z (n * n) / inject_Z (4 * p))%Q).
    { unfold avg. rewrite (inject_Z_mult n n). field. exact HPz. }
    rewrite Hrhs. unfold Qminus. apply Qplus_le_compat; [exact Hsq | apply Qle_refl].
  - assert (Hz : (DU / inject_Z n == 0)%Q <-> (DU == 0)%Q).
    { split; intros H.
      - assert (Hd : (DU == DU / inject_Z n * inject_Z n)%Q) by (field; exact HNz).
        rewrite Hd, H. ring.
      - rewrite H. field. exact HNz. }
    rewrite Hz, Hdev, deviation_zero. fold C.
    assert (Hcell : forall x : Z, (inject_Z x == avg)%Q <-> 4 * p * x = n).
    { intros x. unfold avg. split; intros H.
      - assert (H' : (inject_Z (4 * p * x) == inject_Z n)%Q).
        { rewrite (inject_Z_mult (4 * p) x), H. field. exact HPz. }
        unfold Qeq in H'. simpl in H'. lia.
      - rewrite <- H, (inject_Z_mult (4 * p) x). field. exact HPz. }
    split.
    + intros H r c Hr Hlt. apply Hcell, H; [exact Hr | unfold C; lia].
    + intros H r c Hr Hlt. apply Hcell, H; [exact Hr | unfold C in Hlt; lia].
Qed.

Lemma getNDUSeq_bounds_witness :
  exists CM NDU,
    getCongruenceMatrix "GGCCAATT" 2 = Ok CM /\
    getNDUSeq "GGCCAATT" 2 = Ok (Fin NDU) /\
    (0 <= NDU)%Q /\
    (NDU <= inject_Z (len "GGCCAATT") - inject_Z (len "GGCCAATT") / inject_Z (4 * 2))%Q /\
    ((NDU == 0)%Q <->
     forall r c, (r < 4)%nat -> Z.of_nat c < 2 -> 4 * 2 * cell CM r c = len "GGCCAATT").
Proof. apply (getNDUSeq_bounds "GGCCAATT" 2); [discriminate | lia]. Defined.

Lemma colmax_quarter (CM : matrix) (C c : nat) :
  shape CM 4 C -> (c < C)%nat -> colsum CM c <= 4 * colmax CM c.
Proof.
  intros Hs Hc. rewrite (colmax_cells CM C c Hs Hc), (colsum_cells CM C c Hs Hc). lia.
Qed.

Lemma sumf_scale (a : Z) (f : nat -> Z) (n : nat) :
  sumf (fun k => a * f k) n = a * sumf f n.
Proof. induction n as [|n IH]; cbn [sumf]; lia. Qed.

(** On a non-empty sequence and for a period [p >= 1] the perfect level is
    at least 1/4: the largest of the four counts of a residue class holds at
    least a quarter of its positions. *)
Theorem getPerfectLevelSeq_quarter (seq : string) (p : Z) :
  seq <> ""%string -> 1 <= p ->
  exists PR, getPerfectLevelSeq seq p = Ok (Fin PR) /\ (1 # 4 <= PR)%Q.
Proof.
  intros Hne Hp. pose proof (len_pos seq Hne) as Hn.
  destruct (getPerfectLevelSeq_value seq p Hp) as (CM & E & Hs & Hc & Ht & Ev).
  rewrite np_truediv_fin in Ev by lia.
  eexists. split; [exact Ev|].
  assert (H4 : len seq <= 4 * sumf (colmax CM) (Z.to_nat p)).
  { rewrite <- Ht, (total_colsums CM _ Hs), <- sumf_scale.
    apply sumf_le. intros c Hlt. apply (colmax_quarter CM _ c Hs Hlt). }
  apply Qle_shift_div_l; [rewrite <- (Zlt_Qlt 0); exact Hn|].
  rewrite Zle_Qle, inject_Z_mult in H4. change (inject_Z 4) with (4 # 1)%Q in H4. lra.
Qed.

Lemma getPerfectLevelSeq_quarter_witness :
  exists PR, getPerfectLevelSeq "GGCCAATT" 2 = Ok (Fin PR) /\ (1 # 4 <= PR)%Q.
Proof. apply (getPerfectLevelSeq_quarter "GGCCAATT" 2); [discriminate | lia]. Defined.

Lemma perfect_level_one (seq : string) (p : Z) :
  seq <> ""%string -> 1 <= p ->
  exists PR, getPerfectLevelSeq seq p = Ok (Fin PR) /\
    ((PR == 1)%Q <-> monochromatic seq p).
Proof.
  intros Hne Hp. pose proof (len_pos seq Hne) as Hn.
  destruct (getPerfectLevelSeq_value seq p Hp) as (CM & E & Hs & Hc & Ht & Ev).
  rewrite np_truediv_fin in Ev by lia.
  set (C := Z.to_nat p) in *.
  assert (Hnn : forall c r, 0 <= cell CM r c)
    by (intros; rewrite Hc; apply occ_nonneg).
  assert (Hle : forall c, (c < C)%nat -> colmax CM c <= colsum CM c)
    by (intros c Hlt; apply (colmax_le_colsum CM C c Hs Hlt (Hnn c))).
  eexists. split; [exact Ev|].
  rewrite (ratio_one _ (len seq) Hn).
  rewrite (monochromatic_columns seq p CM ltac:(lia) Hs Hc). fold C.
  split.
  - intros Heq. apply sumf_le_eq; [exact Hle|].
    rewrite Heq, <- Ht. apply (total_colsums CM C Hs).
  - intros Hall. rewrite <- Ht, (total_colsums CM C Hs).
    apply sumf_ext. exact Hall.
Qed.

(** A period at least as long as the sequence is not refused and always
    has perfect level 1: no residue class holds two positions. *)
Theorem getPerfectLevelSeq_long_period (seq : string) (p : Z) :
  seq <> ""%string -> len seq <= p ->
  exists PR, getPerfectLevelSeq seq p = Ok (Fin PR) /\ (PR == 1)%Q.
Proof.
  intros Hne Hp. pose proof (len_pos seq Hne) as Hn.
  destruct (perfect_level_one seq p Hne ltac:(lia)) as (PR & E & Hone).
  exists PR. split; [exact E|]. apply Hone.
  intros i j a b Hi Hj Hmod.
  pose proof (lookup_lt_Some _ _ _ Hi) as Li.
  pose proof (lookup_lt_Some _ _ _ Hj) as Lj.
  unfold len in Hp.
  rewrite !Z.mod_small in Hmod by lia.
  assert (i = j) by lia. subst j. congruence.
Qed.

Lemma getPerfectLevelSeq_long_period_witness :
  exists PR, getPerfectLevelSeq "ATCG" 7 = Ok (Fin PR) /\ (PR == 1)%Q.
Proof.
  apply (getPerfectLevelSeq_long_period "ATCG" 7); [discriminate | vm_compute; discriminate].
Defined.

(** ** The two NDU functions outside their domain *)

Lemma getNDUSeqEquation_empty (p : Z) : 1 <= p -> getNDUSeqEquation "" p = Ok NaN.
Proof.
  intros Hp.
  destruct (getNDUSeq_value "" p Hp) as (CM & DU & E & _ & Ev & _).
  destruct (getCongruenceMatrix_occ "" p ltac:(lia)) as (CM' & E' & Hs & Hc).
  rewrite E in E'. injection E' as <-.
  rewrite Ev. f_equal.
  assert (Hsq : squares CM (Z.to_nat p) = 0).
  { unfold squares. apply sumf_all_zero. intros r _.
    apply sumf_all_zero. intros c _. rewrite Hc. reflexivity. }
  rewrite Hsq. change (len "") with 0.
  assert (H0 : (inject_Z 0 - inject_Z (0 * 0) / inject_Z (4 * p) == 0)%Q).
  { change (inject_Z (0 * 0)) with 0%Q. change (inject_Z 0) with 0%Q.
    unfold Qdiv. ring. }
  unfold np_truediv. simpl (0 =? 0).
  apply Qeq_alt in H0. rewrite H0. reflexivity.
Qed.

(** Where no NDU is defined, on the empty sequence or for a period below
    1, the two NDU functions still behave alike: both return nan, or both
    raise the same exception. *)
Theorem ndu_functions_fail_alike (seq : string) (p : Z) :
  seq = ""%string \/ p < 1 ->
  getNDUSeqEquation seq p = getNDUSeq seq p /\
  (getNDUSeq seq p = Ok NaN \/ raises (getNDUSeq seq p)).
Proof.
  intros H.
  destruct (Z.ltb_spec p 1) as [Hlt|Hge].
  - split; [|right; apply scores_raise, Hlt].
    destruct (Z.ltb_spec p 0) as [Hneg|Hnn].
    + unfold getNDUSeq, getNDUSeqEquation.
      rewrite (getCongruenceMatrix_negative seq p Hneg). reflexivity.
    + assert (p = 0) as -> by lia. destruct seq as [|a s]; [reflexivity|].
      unfold getNDUSeq, getNDUSeqEquation.
      rewrite (getCongruenceMatrix_zero (String a s)) by discriminate. reflexivity.
  - destruct H as [->|H]; [|lia].
    destruct (scores_of_empty p Hge) as [E _].
    rewrite E, (getNDUSeqEquation_empty p Hge). split; [reflexivity | left; reflexivity].
Qed.

Lemma ndu_functions_fail_alike_witness :
  getNDUSeqEquation "" 3 = getNDUSeq "" 3 /\
  (getNDUSeq "" 3 = Ok NaN \/ raises (getNDUSeq "" 3)).
Proof. apply (ndu_functions_fail_alike "" 3). left. reflexivity. Defined.

(** ** The matrix builder and the consensus outside their domain *)

Lemma map_const_seq {A : Type} (x : A) (a n : nat) :
  map (fun _ => x) (seq a n) = replicate n x.
Proof.
  revert a. induction n as [|n IH]; intros a; [reflexivity|].
  cbn [seq map replicate]. f_equal. apply IH.
Qed.

(** [getCongruenceMatrix] raises [ValueError] for a negative period and
    [ZeroDivisionError] for period 0 on a non-empty sequence; on the empty
    sequence it returns four rows of [p] zeros for every [p >= 0], and the
    consensus is then [p] times the symbol G. *)
Theorem getCongruenceMatrix_edges (seq : string) (p : Z) :
  (p < 0 -> getCongruenceMatrix seq p = Raise ValueError /\
            getRepeatSeq seq p = Raise ValueError) /\
  (seq <> ""%string ->
     getCongruenceMatrix seq 0 = Raise ZeroDivisionError /\
     getRepeatSeq seq 0 = Raise ZeroDivisionError) /\
  (0 <= p ->
     getCongruenceMatrix "" p = Ok (zeros 4 (Z.to_nat p)) /\
     getRepeatSeq "" p = Ok (string_of_list_ascii (replicate (Z.to_nat p) "G"%char))).
Proof.
  split; [|split].
  - intros Hp. unfold getRepeatSeq.
    rewrite (getCongruenceMatrix_negative seq p Hp). split; reflexivity.
  - intros Hne. unfold getRepeatSeq.
    rewrite (getCongruenceMatrix_zero seq Hne). split; reflexivity.
  - intros Hp.
    assert (E : getCongruenceMatrix "" p = Ok (zeros 4 (Z.to_nat p))).
    { unfold getCongruenceMatrix. destruct (Z.ltb_spec p 0); [lia | reflexivity]. }
    split; [exact E|].
    unfold getRepeatSeq. rewrite E. cbn [bind].
    rewrite (mapM_pure _ (fun _ => "G"%char)).
    + cbn [bind]. f_equal. f_equal. unfold nrange. apply map_const_seq.
    + apply Forall_forall. intros i Hi. unfold nrange in Hi. apply elem_of_seq in Hi.
      rewrite (pyitem_nat _ i 0%nat); [reflexivity|].
      unfold argmax0, zeros.
      assert (Hn : ncols (replicate 4 (replicate (Z.to_nat p) 0)) = Z.to_nat p)
        by apply length_replicate.
      rewrite Hn, list_lookup_fmap, lookup_seq_lt by lia. cbn [fmap option_fmap option_map].
      f_equal. unfold column. cbn [replicate omap list_omap].
      rewrite lookup_replicate_2 by lia. reflexivity.
Qed.

(** ** Searches on short sequences and empty ranges *)

Lemma pyrange_empty (a b : Z) : b <= a -> pyrange a b = [].
Proof.
  intros H. unfold pyrange, seqZ.
  replace (Z.to_nat (b - a)) with 0%nat by lia. reflexivity.
Qed.

(** On a sequence of fewer than 6 symbols (the empty one included) the
    default limit leaves no period to scan: [getNDUAllSeq] returns the
    placeholder alone, [getMaxNDUSeq] returns periodicity 1 with score 0,
    and [getMaxPRSeq] raises [ValueError]. *)
Theorem searches_on_short_sequences (seq : string) :
  len seq < 6 ->
  getNDUAllSeq seq None = Ok [Fin 0] /\
  getMaxNDUSeq seq None = Ok (1, Fin 0) /\
  getMaxPRSeq seq = Raise ValueError.
Proof.
  intros H.
  assert (Hmp : default_limit (len seq) <= 2).
  { rewrite default_limit_min.
    assert (len seq / 2 < 3) by (apply Z.div_lt_upper_bound; lia). lia. }
  unfold getNDUAllSeq, getMaxNDUSeq, getMaxPRSeq. cbn [period_limit].
  rewrite (pyrange_empty 2 _ Hmp). split; [|split]; reflexivity.
Qed.

Lemma searches_on_short_sequences_witness :
  getNDUAllSeq "ATCGA" None = Ok [Fin 0] /\
  getMaxNDUSeq "ATCGA" None = Ok (1, Fin 0) /\
  getMaxPRSeq "ATCGA" = Raise ValueError.
Proof. apply (searches_on_short_sequences "ATCGA"). vm_compute. reflexivity. Defined.

(** An empty range of periods: the range scans return the empty list and
    [getMaxPerfect] raises [ValueError], whatever the sequence and even for
    periods that no score accepts. *)
Theorem searches_on_empty_range (seq : string) (p1 p2 : Z) :
  p2 <= p1 ->
  getPRRangeSeq seq p1 p2 = Ok [] /\
  getMaxPerfect seq p1 p2 = Raise ValueError /\
  (p2 < p1 -> getNDURangeSeq seq p1 p2 = Ok []).
Proof.
  intros H. unfold getPRRangeSeq, getMaxPerfect, getNDURangeSeq.
  rewrite (pyrange_empty p1 p2 H). split; [reflexivity|]. split; [reflexivity|].
  intros Hlt. rewrite (pyrange_empty p1 (p2 + 1)) by lia. reflexivity.
Qed.

Lemma searches_on_empty_range_witness :
  getPRRangeSeq "ATCG" 0 0 = Ok [] /\
  getMaxPerfect "ATCG" 0 0 = Raise ValueError /\
  (0 < 0 -> getNDURangeSeq "ATCG" 0 0 = Ok []).
Proof. apply (searches_on_empty_range "ATCG" 0 0). lia. Defined.

Lemma fold_max_const (v : pyfloat) (n : nat) :
  pf_gt v v = false ->
  fold_left (fun m y => if pf_gt y m then y else m) (replicate n v) v = v.
Proof.
  intros H. induction n as [|n IH]; [reflexivity|].
  cbn [replicate fold_left]. rewrite H. exact IH.
Qed.

(** On a sequence of at least 6 symbols [getMaxPRSeq] returns period 2,
    whatever the sequence, with the perfect level of the limit
    [mp = min (n / 2) 100]: its loop scores [mp] at every turn. *)
Theorem getMaxPRSeq_period_two (seq : string) :
  6 <= len seq ->
  exists PR,
    getPerfectLevelSeq seq (Z.min (len seq / 2) 100) = Ok (Fin PR) /\
    getMaxPRSeq seq = Ok (2, Fin PR).
Proof.
  intros H.
  assert (Hne : seq <> ""%string) by (apply len_pos_inv; lia).
  assert (Hmp : 3 <= Z.min (len seq / 2) 100).
  { assert (3 <= len seq / 2) by (apply Z.div_le_lower_bound; lia). lia. }
  destruct (scores_finite seq (Z.min (len seq / 2) 100) ltac:(lia) Hne) as (_ & PR & _ & E).
  exists PR. split; [exact E|].
  unfold getMaxPRSeq. rewrite default_limit_min.
  set (mp := Z.min (len seq / 2) 100) in *.
  rewrite (mapM_pure _ (fun _ => Fin PR)) by (apply Forall_forall; intros; exact E).
  cbn [bind]. unfold pyrange, seqZ. rewrite map_map.
  replace (Z.to_nat (mp - 2)) with (S (Z.to_nat (mp - 3))) by lia.
  rewrite map_const_seq. cbn [replicate pymax bind].
  assert (Hgt : pf_gt (Fin PR) (Fin PR) = false) by (apply pf_gt_fin_false, Qle_refl).
  rewrite (fold_max_const _ _ Hgt). cbn [bind pyindex].
  assert (Heq : pf_eq (Fin PR) (Fin PR) = true) by (apply pf_eq_fin; reflexivity).
  rewrite Heq. reflexivity.
Qed.

Lemma getMaxPRSeq_period_two_witness :
  exists PR,
    getPerfectLevelSeq "ATCGATCG" (Z.min (len "ATCGATCG" / 2) 100) = Ok (Fin PR) /\
    getMaxPRSeq "ATCGATCG" = Ok (2, Fin PR).
Proof. apply (getMaxPRSeq_period_two "ATCGATCG"). vm_compute. discriminate. Defined.

(** ** The consensus of an exact repeat *)

Lemma pyslice_prefix {A : Type} (l : list A) (b : Z) :
  0 <= b -> b <= Z.of_nat (length l) -> pyslice l 0 b = take (Z.to_nat b) l.
Proof.
  intros H0 Hb. unfold pyslice, clip.
  destruct (Z.ltb_spec 0 0); [lia|]. destruct (Z.ltb_spec b 0); [lia|].
  set (n := Z.of_nat (length l)).
  replace (Z.to_nat (Z.max 0 (Z.min n 0))) with 0%nat by lia.
  replace (Z.to_nat (Z.max 0 (Z.min n b) - Z.max 0 (Z.min n 0))) with (Z.to_nat b) by lia.
  rewrite drop_0. reflexivity.
Qed.

Lemma argmax_of_monochromatic (seq : string) (p : Z) (CM : matrix) (c : nat) (ch : ascii) :
  0 < p -> shape CM 4 (Z.to_nat p) ->
  (forall r c, cell CM r c = occ p r c (chars seq) 0) ->
  monochromatic seq p -> Z.of_nat c < p -> chars seq !! c = Some ch ->
  argmax_list (column CM c) = bucket ch.
Proof.
  intros Hp Hs Hc Hm Hlt Hch.
  assert (Hc' : (c < Z.to_nat p)%nat) by lia.
  assert (Hnn : forall r, 0 <= cell CM r c) by (intros; rewrite Hc; apply occ_nonneg).
  assert (Hpos : 0 < cell CM (bucket ch) c).
  { rewrite Hc. apply occ_pos. exists c, ch. split; [exact Hch|]. split; [reflexivity|].
    rewrite Z.add_0_l, Z.mod_small by lia. lia. }
  pose proof (proj1 (monochromatic_columns seq p CM Hp Hs Hc) Hm c Hc') as Heq.
  pose proof (proj1 (colmax_eq_colsum CM _ c Hs Hc' Hnn) Heq) as Hone.
  pose proof (column_cells CM _ c Hs Hc') as Hcol.
  destruct (argmax_four (cell CM 0 c) (cell CM 1 c) (cell CM 2 c) (cell CM 3 c))
    as (Hr & Hmax & _).
  rewrite <- Hcol in Hr, Hmax.
  set (r := argmax_list (column CM c)) in *.
  specialize (Hmax (bucket ch) (bucket_lt ch)).
  rewrite Hcol, !nth_cells in Hmax by (auto using bucket_lt).
  apply Hone; [exact Hr | apply bucket_lt | lia | exact Hpos].
Qed.

Lemma map_fixed {A : Type} (f : A -> A) (l : list A) :
  Forall (fun x => f x = x) l -> map f l = l.
Proof. induction 1 as [|x l Hx _ IH]; cbn [map]; congruence. Qed.

(** Round trip: when every residue class modulo [p] is monochromatic (the
    sequence repeats its first [p] symbols, bucket for bucket) and
    [1 <= p <= n], the consensus is the first [p] symbols of the sequence,
    with every symbol outside G, C, A written T; on a sequence over G, C,
    A, T it is the repeat unit [seq[0:p]] itself. *)
Theorem getRepeatSeq_of_exact_repeat (seq : string) (p : Z) :
  1 <= p -> p <= len seq -> monochromatic seq p ->
  getRepeatSeq seq p = Ok (canonical_seq (str_slice seq 0 p)) /\
  (Forall (fun ch => canonical ch = ch) (chars seq) ->
   getRepeatSeq seq p = Ok (str_slice seq 0 p)).
Proof.
  intros Hp Hn Hm.
  destruct (getCongruenceMatrix_occ seq p ltac:(lia)) as (CM & E & Hs & Hc).
  assert (Hmain : getRepeatSeq seq p = Ok (canonical_seq (str_slice seq 0 p))).
  { rewrite (getRepeatSeq_value seq p CM Hp E Hs). f_equal.
    unfold canonical_seq, str_slice. rewrite chars_string_of_list. f_equal.
    unfold len in Hn. rewrite pyslice_prefix by lia.
    unfold nrange. apply list_eq. intros c.
    rewrite !list_lookup_fmap.
    destruct (decide (c < Z.to_nat p)%nat) as [Hlt|Hge].
    - rewrite lookup_seq_lt, lookup_take_lt by lia.
      destruct (lookup_lt_is_Some_2 (chars seq) c ltac:(lia)) as [ch Hch].
      rewrite Hch. cbn [fmap option_fmap option_map]. f_equal.
      unfold canonical. f_equal.
      apply (argmax_of_monochromatic seq p CM c ch); auto; lia.
    - rewrite lookup_seq_ge, lookup_take_ge by lia. reflexivity. }
  split; [exact Hmain|].
  intros Hall. rewrite Hmain. f_equal.
  unfold canonical_seq, str_slice. rewrite chars_string_of_list. f_equal.
  apply map_fixed.
  unfold len in Hn. rewrite pyslice_prefix by lia.
  apply Forall_take, Hall.
Qed.

Lemma getRepeatSeq_of_exact_repeat_witness :
  getRepeatSeq "ATCGATCGAT" 4 = Ok (canonical_seq (str_slice "ATCGATCGAT" 0 4)) /\
  (Forall (fun ch => canonical ch = ch) (chars "ATCGATCGAT") ->
   getRepeatSeq "ATCGATCGAT" 4 = Ok (str_slice "ATCGATCGAT" 0 4)).
Proof.
  apply (getRepeatSeq_of_exact_repeat "ATCGATCGAT" 4);
    [lia | vm_compute; discriminate |].
  intros i j a b Hi Hj Hmod.
  pose proof (lookup_lt_Some _ _ _ Hi) as Li.
  pose proof (lookup_lt_Some _ _ _ Hj) as Lj.
  cbn [chars list_ascii_of_string length] in Li, Lj.
  do 10 (destruct i as [|i]; [do 10 (destruct j as [|j];
    [first [ vm_compute in Hmod; discriminate Hmod
           | cbn in Hi, Hj; injection Hi as <-; injection Hj as <-; reflexivity ]
    |]); lia |]).
  lia.
Defined.

(** ** [sorted] and the three largest scores *)

Lemma pf_lt_fin (x y : Q) : pf_lt (Fin x) (Fin y) = true <-> (x < y)%Q.
Proof. unfold pf_lt. apply pf_gt_fin. Qed.

Lemma pyinsert_fin (x : Q) (l : list Q) :
  ascending l ->
  exists l', pyinsert (Fin x) (map Fin l) = map Fin l' /\
             x :: l ≡ₚ l' /\ ascending l'.
Proof.
  induction 1 as [|y t Hy Ht IH].
  - exists [x]. split; [reflexivity|]. split; [reflexivity|].
    constructor; [constructor | constructor].
  - cbn [map pyinsert].
    destruct (pf_lt (Fin x) (Fin y)) eqn:C.
    + apply pf_lt_fin in C.
      exists (x :: y :: t). split; [reflexivity|]. split; [reflexivity|].
      constructor; [|constructor; assumption].
      constructor; [apply Qlt_le_weak, C|].
      eapply Forall_impl; [exact Hy|]. intros z Hz. simpl in Hz.
      apply Qlt_le_weak. apply (Qlt_le_trans _ y); assumption.
    + assert (Hyx : (y <= x)%Q).
      { apply Qnot_lt_le. intros H. apply pf_lt_fin in H. congruence. }
      destruct IH as (l' & E & Hp & Ha).
      exists (y :: l'). split; [rewrite E; reflexivity|]. split.
      * rewrite <- Hp. apply perm_swap.
      * constructor; [|exact Ha].
        rewrite <- Hp. constructor; assumption.
Qed.

Lemma pysorted_fin (qs : list Q) :
  exists l', pysorted (map Fin qs) = map Fin l' /\ qs ≡ₚ l' /\ ascending l'.
Proof.
  unfold pysorted.
  assert (H : forall acc, ascending acc ->
            exists l', fold_left (fun acc x => pyinsert x acc) (map Fin qs) (map Fin acc)
                       = map Fin l' /\ qs ++ acc ≡ₚ l' /\ ascending l').
  { induction qs as [|x qs IH]; intros acc Ha.
    - exists acc. split; [reflexivity|]. split; [reflexivity | exact Ha].
    - cbn [map fold_left].
      destruct (pyinsert_fin x acc Ha) as (acc' & E & Hp & Ha').
      rewrite E. destruct (IH acc' Ha') as (l' & E' & Hp' & Hs').
      exists l'. split; [exact E'|]. split; [|exact Hs'].
      rewrite <- Hp', <- Hp. cbn [app]. apply Permutation_middle. }
  destruct (H [] ascending_nil) as (l' & E & Hp & Ha).
  exists l'. split; [exact E|]. split; [|exact Ha].
  rewrite <- Hp, app_nil_r. reflexivity.
Qed.

Lemma ascending_app (l1 l2 : list Q) :
  ascending (l1 ++ l2) ->
  ascending l2 /\ Forall (fun x => Forall (fun y => (x <= y)%Q) l2) l1.
Proof.
  induction l1 as [|x l1 IH]; cbn [app]; intros H.
  - split; [exact H | constructor].
  - inversion H as [|x' l' Hx Hl]; subst.
    destruct (IH Hl) as [H2 H1]. split; [exact H2|].
    constructor; [|exact H1].
    apply Forall_app in Hx as [_ Hx]. exact Hx.
Qed.

Lemma last_three {A : Type} (l : list A) :
  (3 <= length l)%nat ->
  exists rest a b c, l = rest ++ [a; b; c] /\ length rest = (length l - 3)%nat.
Proof.
  intros H. exists (take (length l - 3) l).
  pose proof (take_drop (length l - 3) l) as E.
  assert (Hd : length (drop (length l - 3) l) = 3%nat) by (rewrite length_drop; lia).
  destruct (drop (length l - 3) l) as [|a [|b [|c [|d t]]]]; try discriminate.
  exists a, b, c. split; [symmetry; exact E|]. rewrite length_take. lia.
Qed.

Lemma pyslice_suffix {A : Type} (rest tail : list A) :
  pyslice (rest ++ tail) (Z.of_nat (length (rest ++ tail)) - Z.of_nat (length tail))
          (Z.of_nat (length (rest ++ tail))) = tail.
Proof.
  unfold pyslice, clip. rewrite length_app.
  set (r := length rest). set (t := length tail).
  destruct (Z.ltb_spec (Z.of_nat (r + t) - Z.of_nat t) 0); [lia|].
  destruct (Z.ltb_spec (Z.of_nat (r + t)) 0); [lia|].
  replace (Z.to_nat (Z.max 0 (Z.min (Z.of_nat (r + t)) (Z.of_nat (r + t) - Z.of_nat t))))
    with r by lia.
  replace (Z.to_nat (Z.max 0 (Z.min (Z.of_nat (r + t)) (Z.of_nat (r + t)))
                     - Z.max 0 (Z.min (Z.of_nat (r + t)) (Z.of_nat (r + t) - Z.of_nat t))))
    with t by lia.
  unfold r. rewrite drop_app_length. apply take_ge. unfold t. lia.
Qed.

Lemma pyindex_found (qs : list Q) (v : Q) :
  (exists y, y ∈ qs /\ (y == v)%Q) ->
  exists k, pyindex (Fin v) (map Fin qs) = Ok (Z.of_nat k) /\ first_index qs v k.
Proof.
  induction qs as [|x qs IH]; intros (y & Hy & Hyv).
  - apply elem_of_nil in Hy. contradiction.
  - cbn [map pyindex].
    destruct (pf_eq (Fin x) (Fin v)) eqn:C.
    + apply pf_eq_fin in C. exists 0%nat. split; [reflexivity|]. split.
      * exists x. split; [reflexivity | exact C].
      * intros j z Hj. lia.
    + assert (Hx : ~ (x == v)%Q).
      { intros H. apply pf_eq_fin in H. congruence. }
      apply elem_of_cons in Hy as [->|Hy]; [contradiction|].
      destruct (IH (ex_intro _ y (conj Hy Hyv))) as (k & E & (Hk & Hbefore)).
      exists (S k). rewrite E. cbn [bind]. split; [f_equal; lia|]. split.
      * exact Hk.
      * intros [|j] z Hj Hz.
        -- injection Hz as <-. exact Hx.
        -- apply (Hbefore j z); [lia | exact Hz].
Qed.

Lemma ndu_range_fin (seq : string) (p1 p2 : Z) :
  seq <> ""%string -> 1 <= p1 ->
  exists qs, mapM (getNDUSeq seq) (pyrange p1 p2) = Ok (map Fin qs) /\
    Z.of_nat (length qs) = Z.max 0 (p2 - p1) /\
    forall k : nat, p1 + Z.of_nat k < p2 ->
      exists q, qs !! k = Some q /\ getNDUSeq seq (p1 + Z.of_nat k) = Ok (Fin q).
Proof.
  intros Hne Hp. apply scan_range_fin. intros x Hx.
  destruct (scores_finite seq x ltac:(lia) Hne) as (q1 & _ & E & _). eauto.
Qed.

Lemma first_index_lt_length (qs : list Q) (v : Q) (k : nat) :
  first_index qs v k -> (k < length qs)%nat.
Proof. intros [(y & Hy & _) _]. apply (lookup_lt_Some _ _ _ Hy). Qed.

Lemma largest_three (qs : list Q) :
  (3 <= length qs)%nat ->
  exists rest a b c ia ib ic,
    getLargests (map Fin qs) 3
    = Ok (map Fin [a; b; c], [Z.of_nat ia; Z.of_nat ib; Z.of_nat ic]) /\
    qs ≡ₚ rest ++ [a; b; c] /\
    Forall (fun x => (x <= a)%Q) rest /\ (a <= b)%Q /\ (b <= c)%Q /\
    first_index qs a ia /\ first_index qs b ib /\ first_index qs c ic.
Proof.
  intros Hlen.
  destruct (pysorted_fin qs) as (l' & E & Hp & Ha).
  pose proof (Permutation_length Hp) as Hl.
  destruct (last_three l' ltac:(lia)) as (rest & a & b & c & -> & Hrest).
  destruct (ascending_app _ _ Ha) as [Habc Hrest_le].
  assert (Hin : forall v, v ∈ [a; b; c] -> exists y, y ∈ qs /\ (y == v)%Q).
  { intros v Hv. exists v. split; [|reflexivity].
    rewrite Hp. apply elem_of_app. right. exact Hv. }
  destruct (pyindex_found qs a (Hin a ltac:(repeat constructor))) as (ia & Ea & Fa).
  destruct (pyindex_found qs b (Hin b ltac:(repeat constructor))) as (ib & Eb & Fb).
  destruct (pyindex_found qs c (Hin c ltac:(repeat constructor))) as (ic & Ec & Fc).
  exists rest, a, b, c, ia, ib, ic.
  split; [|split; [exact Hp|split; [|split; [|split; [|auto]]]]].
  - unfold getLargests. rewrite E.
    assert (Hs : pyslice (map Fin (rest ++ [a; b; c]))
                   (Z.of_nat (length (map Fin qs)) - 3)
                   (Z.of_nat (length (map Fin qs))) = map Fin [a; b; c]).
    { rewrite map_app.
      replace (length (map Fin qs))
        with (length (map Fin rest ++ map Fin [a; b; c]))
        by (rewrite <- map_app, !length_map; lia).
      apply (pyslice_suffix (map Fin rest) (map Fin [a; b; c])). }
    rewrite Hs. change (pyrange 0 3) with [0; 1; 2]. cbn [mapM].
    change (pyitem (map Fin [a; b; c]) 0) with (Ok (Fin a)).
    change (pyitem (map Fin [a; b; c]) 1) with (Ok (Fin b)).
    change (pyitem (map Fin [a; b; c]) 2) with (Ok (Fin c)).
    cbn [bind]. rewrite Ea, Eb, Ec. reflexivity.
  - eapply Forall_impl; [exact Hrest_le|]. intros x Hx. simpl in Hx.
    apply Forall_cons in Hx as [Hx _]. exact Hx.
  - inversion Habc as [|? ? Hab _]; subst.
    apply Forall_cons in Hab as [Hab _]. exact Hab.
  - inversion Habc as [|? ? _ Hbc]; subst.
    inversion Hbc as [|? ? Hb _]; subst.
    apply Forall_cons in Hb as [Hb _]. exact Hb.
Qed.

(** With [n = 3], on at least three finite scores, [getLargests] returns
    the three largest scores in ascending order, each with the first
    position at which it occurs in the list. *)
Theorem getLargests_three (qs : list Q) :
  (3 <= length qs)%nat ->
  exists rest a b c ia ib ic,
    getLargests (map Fin qs) 3
    = Ok (map Fin [a; b; c], [Z.of_nat ia; Z.of_nat ib; Z.of_nat ic]) /\
    qs ≡ₚ rest ++ [a; b; c] /\
    Forall (fun x => (x <= a)%Q) rest /\ (a <= b)%Q /\ (b <= c)%Q /\
    first_index qs a ia /\ first_index qs b ib /\ first_index qs c ic /\
    (ia < length qs)%nat /\ (ib < length qs)%nat /\ (ic < length qs)%nat.
Proof.
  intros Hlen.
  destruct (largest_three qs Hlen)
    as (rest & a & b & c & ia & ib & ic & E & Hp & Hrest & Hab & Hbc & Fa & Fb & Fc).
  exists rest, a, b, c, ia, ib, ic.
  split; [exact E|]. split; [exact Hp|]. split; [exact Hrest|].
  split; [exact Hab|]. split; [exact Hbc|].
  split; [exact Fa|]. split; [exact Fb|]. split; [exact Fc|].
  split; [|split]; eapply first_index_lt_length; eassumption.
Qed.

Lemma getLargests_three_witness :
  exists rest a b c ia ib ic,
    getLargests (map Fin [0; 2; 12; 3; 14; 5; 9; 2; 13; 4]%Q) 3
    = Ok (map Fin [a; b; c], [Z.of_nat ia; Z.of_nat ib; Z.of_nat ic]) /\
    [0; 2; 12; 3; 14; 5; 9; 2; 13; 4]%Q ≡ₚ rest ++ [a; b; c] /\
    Forall (fun x => (x <= a)%Q) rest /\ (a <= b)%Q /\ (b <= c)%Q /\
    first_index [0; 2; 12; 3; 14; 5; 9; 2; 13; 4]%Q a ia /\
    first_index [0; 2; 12; 3; 14; 5; 9; 2; 13; 4]%Q b ib /\
    first_index [0; 2; 12; 3; 14; 5; 9; 2; 13; 4]%Q c ic /\
    (ia < length [0; 2; 12; 3; 14; 5; 9; 2; 13; 4]%Q)%nat /\
    (ib < length [0; 2; 12; 3; 14; 5; 9; 2; 13; 4]%Q)%nat /\
    (ic < length [0; 2; 12; 3; 14; 5; 9; 2; 13; 4]%Q)%nat.
Proof.
  apply (getLargests_three [0; 2; 12; 3; 14; 5; 9; 2; 13; 4]%Q).
  cbn [length]. lia.
Defined.

Example getLargests_ex :
  getLargests (map Fin [0; 2; 12; 3; 14; 5; 9; 2; 13; 4]%Q) 3
  = Ok (map Fin [12; 13; 14]%Q, [2; 8; 4]).
Proof. vm_compute. reflexivity. Qed.

(** ** The top-3 searches *)

Lemma first_index_of_max (qs : list Q) (i k : nat) (m c : Q) :
  first_max qs i m -> first_index qs c k ->
  (forall y, y ∈ qs -> (y <= c)%Q) -> k = i.
Proof.
  intros (Hi & Hmax & Hfirst) ((y & Hk & Hy) & Hbefore) Hc.
  assert (Hmc : (m == c)%Q).
  { apply Qle_antisym.
    - apply Hc. apply (list_elem_of_lookup_2 _ _ _ Hi).
    - rewrite <- Hy. apply (Hmax k y Hk). }
  destruct (lt_eq_lt_dec k i) as [[Hlt|Heq]|Hgt]; [|exact Heq|].
  - pose proof (Hfirst k y Hlt Hk) as H. rewrite Hy, Hmc in H.
    exfalso. apply (Qlt_irrefl _ H).
  - exfalso. apply (Hbefore i m Hgt Hi Hmc).
Qed.

(** The tail of both top-n searches, on a list of at least three finite
    scores and with [n = 3]. *)
Lemma top_three_periods (qs : list Q) (p1 : Z) :
  (3 <= length qs)%nat ->
  exists i m periods,
    first_max qs i m /\
    pymax (map Fin qs) = Ok (Fin m) /\
    pyindex (Fin m) (map Fin qs) = Ok (Z.of_nat i) /\
    (let* largests := getLargests (map Fin qs) 3 in
     let maxIdx := largests.2 in
     let maxPeriods := map (fun x => x + p1) maxIdx in
     let* maxPeriod := pyitem maxPeriods (3 - 1) in
     Ok (maxPeriods, maxPeriod)) = Ok (periods, p1 + Z.of_nat i) /\
    length periods = 3%nat /\
    Forall (fun per => p1 <= per < p1 + Z.of_nat (length qs)) periods.
Proof.
  intros Hlen.
  destruct (max_index_fin qs ltac:(intros ->; simpl in Hlen; lia)) as (i & m & Em & Ei & Hf).
  destruct (largest_three qs Hlen)
    as (rest & a & b & c & ia & ib & ic & E & Hp & Hrest & Hab & Hbc & Fa & Fb & Fc).
  assert (Hc : forall y, y ∈ qs -> (y <= c)%Q).
  { intros y Hy. rewrite Hp in Hy. apply elem_of_app in Hy as [Hy|Hy].
    - rewrite Forall_forall in Hrest. specialize (Hrest y Hy).
      apply (Qle_trans _ a); [exact Hrest|]. apply (Qle_trans _ b); assumption.
    - apply elem_of_cons in Hy as [->|Hy]; [apply (Qle_trans _ b); assumption|].
      apply elem_of_cons in Hy as [->|Hy]; [assumption|].
      apply elem_of_cons in Hy as [->|Hy]; [apply Qle_refl|].
      apply elem_of_nil in Hy. contradiction. }
  pose proof (first_index_of_max qs i ic m c Hf Fc Hc) as ->.
  pose proof (first_index_lt_length _ _ _ Fa) as La.
  pose proof (first_index_lt_length _ _ _ Fb) as Lb.
  pose proof (first_index_lt_length _ _ _ Fc) as Lc.
  exists i, m, [Z.of_nat ia + p1; Z.of_nat ib + p1; Z.of_nat i + p1].
  split; [exact Hf|]. split; [exact Em|]. split; [exact Ei|].
  split; [|split; [reflexivity|]].
  - rewrite E. cbn [bind snd map].
    change (pyitem [Z.of_nat ia + p1; Z.of_nat ib + p1; Z.of_nat i + p1] (3 - 1))
      with (Ok (A := Z) (Z.of_nat i + p1)).
    cbn [bind]. f_equal. f_equal. lia.
  - repeat constructor; lia.
Qed.

(** With [n = 3], on a non-empty sequence and periods [1 <= p1],
    [p1 + 3 <= p2], both top-n searches return three scanned periods, the
    last being the first (lowest) period with the largest score:
    [getTopMaxPeriods] ends on the first period of [p1 .. p2] with the
    largest NDU, and [getTopMaxPerfects] ends on the very period that
    [getMaxPerfect] returns. *)
Theorem top_three_searches (seq : string) (p1 p2 : Z) :
  seq <> ""%string -> 1 <= p1 -> p1 + 3 <= p2 ->
  (exists qs i m periods,
     getNDURangeSeq seq p1 p2 = Ok (map Fin qs) /\
     first_max qs i m /\
     getTopMaxPeriods seq p1 p2 3 = Ok (periods, p1 + Z.of_nat i) /\
     length periods = 3%nat /\
     Forall (fun per => p1 <= per <= p2) periods) /\
  (exists periods per s,
     getTopMaxPerfects seq p1 p2 3 = Ok (periods, per) /\
     getMaxPerfect seq p1 p2 = Ok (per, s) /\
     length periods = 3%nat /\
     Forall (fun per => p1 <= per < p2) periods).
Proof.
  intros Hne H1 H2. split.
  - destruct (ndu_range_fin seq p1 (p2 + 1) Hne H1) as (qs & E & Hl & _).
    destruct (top_three_periods qs p1 ltac:(lia)) as (i & m & periods & Hf & _ & _ & Et & Hlen & Hall).
    exists qs, i, m, periods.
    split; [exact E|]. split; [exact Hf|]. split; [|split; [exact Hlen|]].
    + unfold getTopMaxPeriods. unfold getNDURangeSeq in *. rewrite E. cbn [bind]. exact Et.
    + eapply Forall_impl; [exact Hall|]. intros per Hper. simpl in Hper. lia.
  - destruct (pr_scores_fin seq p1 p2 Hne H1) as (qs & E & Hl & _).
    destruct (top_three_periods qs p1 ltac:(lia)) as (i & m & periods & Hf & Em & Ei & Et & Hlen & Hall).
    exists periods, (p1 + Z.of_nat i), (Fin m).
    split; [|split; [|split; [exact Hlen|]]].
    + unfold getTopMaxPerfects, getPRRangeSeq. rewrite E. cbn [bind]. exact Et.
    + unfold getMaxPerfect. rewrite E. cbn [bind]. rewrite Em. cbn [bind].
      rewrite Ei. cbn [bind]. f_equal. f_equal. lia.
    + eapply Forall_impl; [exact Hall|]. intros per Hper. simpl in Hper. lia.
Qed.

Lemma top_three_searches_witness :
  (exists qs i m periods,
     getNDURangeSeq "ATCGATCGAT" 2 5 = Ok (map Fin qs) /\
     first_max qs i m /\
     getTopMaxPeriods "ATCGATCGAT" 2 5 3 = Ok (periods, 2 + Z.of_nat i) /\
     length periods = 3%nat /\
     Forall (fun per => 2 <= per <= 5) periods) /\
  (exists periods per s,
     getTopMaxPerfects "ATCGATCGAT" 2 5 3 = Ok (periods, per) /\
     getMaxPerfect "ATCGATCGAT" 2 5 = Ok (per, s) /\
     length periods = 3%nat /\
     Forall (fun per => 2 <= per < 5) periods).
Proof. apply (top_three_searches "ATCGATCGAT" 2 5); [discriminate | lia | lia]. Defined.

(** ** What the best-period search hands to its callers *)

(** On a non-empty sequence [getMaxNDUSeq] never raises, whatever the
    limit: it returns a non-negative finite score and a periodicity [per]
    with [1 <= per], below the limit unless it is the placeholder 1 (so at
    most 99 and below [n / 2] by default); and the matrix builder, the
    consensus and the sliding-window walk all accept that periodicity. *)
Theorem getMaxNDUSeq_result (seq : string) (mp : option Z) :
  seq <> ""%string ->
  exists per s,
    getMaxNDUSeq seq mp = Ok (per, Fin s) /\
    (0 <= s)%Q /\
    1 <= per /\ (per = 1 \/ per < period_limit (len seq) mp) /\
    (mp = None -> per <= 99 /\ (per = 1 \/ 2 * per < len seq)) /\
    (exists CM, getCongruenceMatrix seq per = Ok CM) /\
    (exists r, getRepeatSeq seq per = Ok r /\ len r = per) /\
    (forall W, exists w, getNDUWindowSeq seq per W = Ok w).
Proof.
  intros Hne.
  destruct (ndu_scores_fin seq (period_limit (len seq) mp) (or_introl Hne))
    as (qs & E & Hl & _).
  destruct (max_index_fin (0%Q :: qs) ltac:(discriminate)) as (i & m & Em & Ei & Hf).
  pose proof (first_max_lt_length _ _ _ Hf) as Hi. cbn [length] in Hi.
  destruct Hf as (_ & Hmax & _).
  set (per := Z.of_nat i + 1).
  assert (Hper : 1 <= per) by (unfold per; lia).
  exists per, m. split; [|split; [|split; [exact Hper|split; [|split; [|split; [|split]]]]]].
  - unfold getMaxNDUSeq. rewrite E. cbn [bind].
    change (Fin 0 :: map Fin qs) with (map Fin (0%Q :: qs)).
    rewrite Em. cbn [bind]. rewrite Ei. reflexivity.
  - apply (Hmax 0%nat 0%Q). reflexivity.
  - unfold per. lia.
  - intros ->. cbn [period_limit] in Hl. rewrite default_limit_min in Hl.
    assert (Hd : 2 * (len seq / 2) <= len seq)
      by (apply Z.mul_div_le; lia).
    unfold per. lia.
  - destruct (getCongruenceMatrix_occ seq per ltac:(lia)) as (CM & Ec & _). eauto.
  - destruct (getCongruenceMatrix_occ seq per ltac:(lia)) as (CM & Ec & Hs & _).
    eexists. split; [apply (getRepeatSeq_value seq per CM Hper Ec Hs)|].
    unfold len, nrange. rewrite chars_string_of_list, length_map, length_seq. lia.
  - intros W. unfold getNDUWindowSeq.
    apply mapM_total. apply Forall_forall. intros x _.
    apply getNDUSeq_returns, Hper.
Qed.

Lemma getMaxNDUSeq_result_witness :
  exists per s,
    getMaxNDUSeq "ATCGATCGAT" None = Ok (per, Fin s) /\
    (0 <= s)%Q /\
    1 <= per /\ (per = 1 \/ per < period_limit (len "ATCGATCGAT") None) /\
    (@None Z = None -> per <= 99 /\ (per = 1 \/ 2 * per < len "ATCGATCGAT")) /\
    (exists CM, getCongruenceMatrix "ATCGATCGAT" per = Ok CM) /\
    (exists r, getRepeatSeq "ATCGATCGAT" per = Ok r /\ len r = per) /\
    (forall W, exists w, getNDUWindowSeq "ATCGATCGAT" per W = Ok w).
Proof. apply (getMaxNDUSeq_result "ATCGATCGAT" None). discriminate. Defined.

(** ** Ranges that start below period 1 *)

Lemma mapM_first_raises {A B : Type} (f : A -> result B) (x : A) (xs : list A) :
  raises (f x) -> raises (mapM f (x :: xs)).
Proof. intros [e He]. exists e. cbn [mapM]. rewrite He. reflexivity. Qed.

Lemma pyrange_cons (a b : Z) : a < b -> pyrange a b = a :: pyrange (a + 1) b.
Proof.
  intros H. unfold pyrange. rewrite seqZ_cons by lia.
  f_equal. f_equal; lia.
Qed.

(** A scan whose first period is below 1 raises at once and returns no
    partial list; so do the searches built on it. *)
Theorem scans_from_invalid_period (seq : string) (p1 p2 n : Z) :
  p1 < 1 -> p1 < p2 ->
  raises (getNDURangeSeq seq p1 p2) /\
  raises (getPRRangeSeq seq p1 p2) /\
  raises (getMaxPerfect seq p1 p2) /\
  raises (getTopMaxPeriods seq p1 p2 n) /\
  raises (getTopMaxPerfects seq p1 p2 n).
Proof.
  intros H1 H2.
  destruct (scores_raise seq p1 H1) as [Hn Hp].
  assert (RN : raises (mapM (getNDUSeq seq) (pyrange p1 (p2 + 1)))).
  { rewrite pyrange_cons by lia. apply mapM_first_raises, Hn. }
  assert (RP : raises (mapM (getPerfectLevelSeq seq) (pyrange p1 p2))).
  { rewrite pyrange_cons by lia. apply mapM_first_raises, Hp. }
  destruct RN as [e1 E1]. destruct RP as [e2 E2].
  unfold getTopMaxPeriods, getTopMaxPerfects, getMaxPerfect, getNDURangeSeq, getPRRangeSeq.
  rewrite E1, E2.
  repeat split; eexists; reflexivity.
Qed.

Lemma scans_from_invalid_period_witness :
  raises (getNDURangeSeq "ATCG" 0 3) /\
  raises (getPRRangeSeq "ATCG" 0 3) /\
  raises (getMaxPerfect "ATCG" 0 3) /\
  raises (getTopMaxPeriods "ATCG" 0 3 3) /\
  raises (getTopMaxPerfects "ATCG" 0 3 3).
Proof. apply (scans_from_invalid_period "ATCG" 0 3 3); lia. Defined.
